(** * The loopback file system of go-fuse (fuse/loopback.go)

    A shallow embedding of [LoopbackFileSystem] and [LoopbackFile]: every
    method is a program that issues calls to its environment (package os,
    package syscall, the Go runtime's channels and goroutines, the buffer
    pool) and continues with the answer.  The environment is a parameter:
    an [Env] answers each call from a world of its own, and [run] threads
    that world through a program while it records the calls made and the
    answers received. *)

From Stdlib Require Import ZArith List String Bool Lia.
From ExtLib Require Import Structures.Monad.
Import ListNotations.
Import MonadNotation.
Local Open Scope monad_scope.
Local Open Scope string_scope.
Local Open Scope Z_scope.

Set Implicit Arguments.

(** ** Go integers

    The source was written for the 6g toolchain, where [int] is 32 bits
    wide; conversions between integer types keep the low bits. *)

Definition wrap_unsigned (bits x : Z) : Z := x mod 2 ^ bits.

Definition wrap_signed (bits x : Z) : Z :=
  (x + 2 ^ (bits - 1)) mod 2 ^ bits - 2 ^ (bits - 1).

Definition int (x : Z) : Z := wrap_signed 32 x.
Definition int64 (x : Z) : Z := wrap_signed 64 x.
Definition uint32 (x : Z) : Z := wrap_unsigned 32 x.

Definition len {X} (s : list X) : Z := Z.of_nat (List.length s).

(** ** Status codes

    Modelled from the spec: the package's int32 status type [Status] and
    its constants, which are declared as [Status(syscall.E...)] in
    types.go, a file of the package other than loopback.go: [OK] for
    success, [ENOENT] for NotFound, and errno values of Linux for the
    failures used below. *)

Definition Status := Z.

(** The conversion [Status(errno)] of an [int]. *)
Definition Status_of_int (errno : Z) : Status := wrap_signed 32 errno.

Definition OK : Status := 0.
Definition ENOENT : Status := 2.
Definition EIO : Status := 5.
Definition EACCES : Status := 13.
Definition ENOSYS : Status := 38.

(** ** Host errors: the values of the interface [os.Error] *)

Inductive Error : Type :=
| EOF
| Errno (e : Z)
| PathError (Op Path : string) (err : Error)
| LinkError (Op Old New : string) (err : Error)
| SyscallError (Syscall : string) (errno : Z).

(** The native error code an error value carries, if it carries one. *)
Fixpoint native_code (e : Error) : option Z :=
  match e with
  | EOF => None
  | Errno c => Some c
  | PathError _ _ err => native_code err
  | LinkError _ _ _ err => native_code err
  | SyscallError _ c => Some c
  end.

(** Modelled from the spec: [OsErrorToErrno], the package's helper that
    turns an [os.Error] into a [Status] (it is declared in a file of the
    package other than loopback.go).  The spec describes it as the
    direct, lossless translation of the host's native error code into the
    status code space, [OK] standing for success.  An error value without a
    native code has no translation in the spec; the model answers [ENOSYS]
    for it, and no theorem below depends on that choice. *)
Definition OsErrorToErrno (err : option Error) : Status :=
  match err with
  | None => OK
  | Some e =>
      match native_code e with
      | Some c => c
      | None => ENOSYS
      end
  end.

(** [err == os.EOF] *)
Definition is_EOF (err : option Error) : bool :=
  match err with
  | Some EOF => true
  | _ => false
  end.

(** [err != nil] *)
Definition not_nil {X} (p : option X) : bool :=
  match p with
  | Some _ => true
  | None => false
  end.

(** ** Data carried across the interface *)

Module FileInfo.
(** Modelled from the spec: the host's metadata snapshot [os.FileInfo],
    with the fields the spec lists for an Attribute Record (size, mode,
    timestamps, link count, ownership) and the entry name. *)
Record t : Type := Make {
  Name : string;
  Size : Z;
  Mode : Z;
  Atime_ns : Z;
  Mtime_ns : Z;
  Ctime_ns : Z;
  Nlink : Z;
  Uid : Z;
  Gid : Z
}.
End FileInfo.

Module Attr.
(** Modelled from the spec: the Attribute Record [Attr] (declared in the
    package's types.go): size, mode, timestamps, link count, ownership. *)
Record t : Type := Make {
  Size : Z;
  Mode : Z;
  Atime_ns : Z;
  Mtime_ns : Z;
  Ctime_ns : Z;
  Nlink : Z;
  Uid : Z;
  Gid : Z
}.

(** [new(Attr)]: every field zero. *)
Definition new : t := Make 0 0 0 0 0 0 0 0.
End Attr.

Module DirEntry.
Record t : Type := Make {
  Name : string;
  Mode : Z
}.
End DirEntry.

Module ReadIn.
Record t : Type := Make {
  Offset : Z;
  Size : Z
}.
End ReadIn.

Module WriteIn.
Record t : Type := Make {
  Offset : Z
}.
End WriteIn.

(** A host file [os.File], named by its descriptor; a [*os.File] may be
    nil, hence [option os_File] wherever the source holds the pointer. *)
Record os_File : Type := { fd : Z }.

(** A channel of the Go runtime, and a buffer pool, by identity. *)
Definition Chan := nat.
Definition BufferPool := nat.

(** The goroutines the package starts: the function literal of [OpenDir],
    closed over [f], [want] and [output]. *)
Inductive Goroutine : Type :=
| OpenDir_func1 (f : option os_File) (want : Z) (output : Chan).

(** Modelled from the spec: [CopyFileInfo], the package's helper that fills
    an Attribute Record from a metadata snapshot: it populates size, mode,
    timestamps, link count and ownership from the snapshot. *)
Definition CopyFileInfo (fi : FileInfo.t) (attr : Attr.t) : Attr.t :=
  {| Attr.Size := FileInfo.Size fi;
     Attr.Mode := FileInfo.Mode fi;
     Attr.Atime_ns := FileInfo.Atime_ns fi;
     Attr.Mtime_ns := FileInfo.Mtime_ns fi;
     Attr.Ctime_ns := FileInfo.Ctime_ns fi;
     Attr.Nlink := FileInfo.Nlink fi;
     Attr.Uid := FileInfo.Uid fi;
     Attr.Gid := FileInfo.Gid fi |}.

(** ** Calls to the environment

    [Call R] is a call whose answer has type [R].  A Go function that
    returns [(x, err)] answers with a pair; pointers and interface values
    that may be nil are options.  [File.ReadAt] writes into the buffer it is
    given: its answer starts with the bytes it stored there. *)

Inductive Call : Type -> Type :=
(* package os *)
| os_Lstat (name : string) : Call (option FileInfo.t * option Error)
| os_Open (name : string) : Call (option os_File * option Error)
| os_OpenFile (name : string) (flag : Z) (perm : Z)
  : Call (option os_File * option Error)
| os_Chmod (name : string) (mode : Z) : Call (option Error)
| os_Chown (name : string) (uid gid : Z) : Call (option Error)
| os_Truncate (name : string) (size : Z) : Call (option Error)
| os_Chtimes (name : string) (atime_ns mtime_ns : Z) : Call (option Error)
| os_Readlink (name : string) : Call (string * option Error)
| os_Mkdir (name : string) (perm : Z) : Call (option Error)
| os_Symlink (oldname newname : string) : Call (option Error)
| os_Rename (oldname newname : string) : Call (option Error)
| os_Link (oldname newname : string) : Call (option Error)
| os_Remove (name : string) : Call (option Error)
(* methods of *os.File *)
| File_Readdir (f : option os_File) (count : Z)
  : Call (list FileInfo.t * option Error)
| File_ReadAt (f : option os_File) (b : list Byte.byte) (off : Z)
  : Call (list Byte.byte * Z * option Error)
| File_WriteAt (f : option os_File) (b : list Byte.byte) (off : Z)
  : Call (Z * option Error)
| File_Close (f : option os_File) : Call (option Error)
| File_Fd (f : option os_File) : Call Z
| File_Chmod (f : option os_File) (mode : Z) : Call (option Error)
| File_Chown (f : option os_File) (uid gid : Z) : Call (option Error)
| File_Stat (f : option os_File) : Call (option FileInfo.t * option Error)
(* package syscall *)
| syscall_Mknod (path : string) (mode : Z) (dev : Z) : Call Z
| syscall_Unlink (path : string) : Call Z
| syscall_Rmdir (path : string) : Call Z
| syscall_Access (path : string) (mode : Z) : Call Z
| syscall_Fsync (fd : Z) : Call Z
| syscall_Ftruncate (fd : Z) (length : Z) : Call Z
(* the package's extended-attribute system calls GetXAttr, ListXAttr and
   Removexattr *)
| fuse_GetXAttr (path attr : string) : Call (list Byte.byte * Z)
| fuse_ListXAttr (path : string) : Call (list string * Z)
| fuse_Removexattr (path attr : string) : Call Z
(* the buffer pool *)
| AllocBuffer (buffers : BufferPool) (size : Z) : Call (list Byte.byte)
(* the Go runtime *)
| make_chan (capacity : Z) : Call Chan
| chan_send (c : Chan) (e : DirEntry.t) : Call unit
| chan_close (c : Chan) : Call unit
| go (g : Goroutine) : Call unit.

(** ** Programs *)

(** How an iteration of a [for] loop ends: with [break], or by reaching
    the end of the body. *)
Inductive Flow : Type := Break | Next.

Inductive Prog : Type -> Type :=
| Ret {A} (a : A) : Prog A
| Panic {A} (msg : string) : Prog A
| Do {A R} (c : Call R) (k : R -> Prog A) : Prog A
| For {A} (body : Prog Flow) (k : Prog A) : Prog A.

Fixpoint pbind {A B} (p : Prog A) : (A -> Prog B) -> Prog B :=
  match p in Prog A0 return (A0 -> Prog B) -> Prog B with
  | Ret a => fun f => f a
  | Panic msg => fun _ => Panic msg
  | Do c k => fun f => Do c (fun r => pbind (k r) f)
  | For body k => fun f => For body (pbind k f)
  end.

#[export] Instance Monad_Prog : Monad Prog :=
  {| ret := @Ret; bind := @pbind |}.

Definition call {R} (c : Call R) : Prog R := Do c (fun r => Ret r).

(** [for _, x := range xs { f x }] *)
Fixpoint for_range {X} (xs : list X) (f : X -> Prog unit) : Prog unit :=
  match xs with
  | [] => Ret tt
  | x :: xs' => f x ;; for_range xs' f
  end.

(** [*p]: a nil pointer panics. *)
Definition deref {X} (p : option X) : Prog X :=
  match p with
  | Some x => Ret x
  | None => Panic "invalid memory address or nil pointer dereference"
  end.

(** [s[:n]]; the slices of this file have their capacity equal to their
    length. *)
Definition slice_to {X} (s : list X) (n : Z) : Prog (list X) :=
  if (0 <=? n) && (n <=? len s)
  then Ret (firstn (Z.to_nat n) s)
  else Panic "slice bounds out of range".

(** The buffer [b] after the host stored the bytes [filled] from its start:
    the contents change, the length does not. *)
Definition overwrite (b filled : list Byte.byte) : list Byte.byte :=
  firstn (List.length b) (filled ++ skipn (List.length filled) b)%list.

(** ** Environments and runs *)

Record Env : Type := {
  World : Type;
  respond : forall R, Call R -> World -> R * World;
  (** [filepath.Join], the host's path joining *)
  filepath_Join : string -> string -> string
}.

Inductive Event : Type :=
| Ev {R} (c : Call R) (r : R).

Inductive Outcome (A : Type) : Type :=
| Returned (a : A)
| Panicked (msg : string)
| OutOfFuel.

Arguments Panicked {A} msg.
Arguments OutOfFuel {A}.

Record Run (W A : Type) : Type := {
  outcome : Outcome A;
  trace : list Event;
  world : W
}.

(** [after t r]: the run [r], preceded by the events [t]. *)
Definition after {W A} (t : list Event) (r : Run W A) : Run W A :=
  {| outcome := outcome r; trace := t ++ trace r; world := world r |}.

Section Running.
Variable h : Env.

(** [for { body }] followed by [rest], at most [n] iterations. *)
Fixpoint run_for {A} (body : World h -> Run (World h) Flow)
    (rest : World h -> Run (World h) A) (n : nat) (w : World h)
  : Run (World h) A :=
  match n with
  | O => {| outcome := OutOfFuel; trace := []; world := w |}
  | S n' =>
      let r := body w in
      match outcome r with
      | Returned Next => after (trace r) (run_for body rest n' (world r))
      | Returned Break => after (trace r) (rest (world r))
      | Panicked msg =>
          {| outcome := Panicked msg; trace := trace r; world := world r |}
      | OutOfFuel =>
          {| outcome := OutOfFuel; trace := trace r; world := world r |}
      end
  end.

(** [run p fuel w]: the program [p] started in world [w]; every loop may
    take up to [fuel] iterations. *)
Fixpoint run {A} (p : Prog A) (fuel : nat) (w : World h)
  : Run (World h) A :=
  match p in Prog A0 return Run (World h) A0 with
  | Ret a => {| outcome := Returned a; trace := []; world := w |}
  | Panic msg => {| outcome := Panicked msg; trace := []; world := w |}
  | Do c k =>
      let rw := respond h c w in
      after [Ev c (fst rw)] (run (k (fst rw)) fuel (snd rw))
  | For body k =>
      run_for (fun w' => run body fuel w') (fun w' => run k fuel w') fuel w
  end.
End Running.

(** ** LoopbackFileSystem *)

(** [os.O_CREATE] (O_CREAT of Linux). *)
Definition O_CREATE : Z := 64.

Module LoopbackFile.
Record t : Type := { file : option os_File }.

Definition Read (me : t) (input : ReadIn.t) (buffers : BufferPool)
  : Prog (list Byte.byte * Status) :=
  slice <- call (AllocBuffer buffers (ReadIn.Size input)) ;;
  '(filled, n, err) <-
    call (File_ReadAt (file me) slice (int64 (ReadIn.Offset input))) ;;
  let slice := overwrite slice filled in
  if is_EOF err then
    out <- slice_to slice n ;;
    Ret (out, OK)
  else
    out <- slice_to slice n ;;
    Ret (out, OsErrorToErrno err).

Definition Write (me : t) (input : WriteIn.t) (data : list Byte.byte)
  : Prog (Z * Status) :=
  '(n, err) <-
    call (File_WriteAt (file me) data (int64 (WriteIn.Offset input))) ;;
  Ret (uint32 n, OsErrorToErrno err).

Definition Release (me : t) : Prog unit :=
  call (File_Close (file me)) ;;
  Ret tt.

(** [Fsync] ignores its [*FsyncIn] argument. *)
Definition Fsync (me : t) : Prog Status :=
  fd <- call (File_Fd (file me)) ;;
  errno <- call (syscall_Fsync fd) ;;
  Ret (Status_of_int errno).

Definition Truncate (me : t) (size : Z) : Prog Status :=
  fd <- call (File_Fd (file me)) ;;
  errno <- call (syscall_Ftruncate fd (int64 size)) ;;
  Ret (Status_of_int errno).

Definition Chmod (me : t) (mode : Z) : Prog Status :=
  err <- call (File_Chmod (file me) mode) ;;
  Ret (OsErrorToErrno err).

Definition Chown (me : t) (uid gid : Z) : Prog Status :=
  err <- call (File_Chown (file me) (int uid) (int gid)) ;;
  Ret (OsErrorToErrno err).

Definition GetAttr (me : t) : Prog (option Attr.t * Status) :=
  '(fi, err) <- call (File_Stat (file me)) ;;
  if not_nil err then Ret (None, OsErrorToErrno err)
  else
    let a := Attr.new in
    fi' <- deref fi ;;
    let a := CopyFileInfo fi' a in
    Ret (Some a, OK).
End LoopbackFile.

(** The interface value [File]: nil, or a [*LoopbackFile]. *)
Definition File := option LoopbackFile.t.

Module LoopbackFileSystem.
Record t : Type := { root : string }.

Definition NewLoopbackFileSystem (root : string) : t :=
  {| root := root |}.

Section Methods.
Variable h : Env.

Definition GetPath (me : t) (relPath : string) : string :=
  filepath_Join h (root me) relPath.

Definition GetAttr (me : t) (name : string)
  : Prog (option Attr.t * Status) :=
  let fullPath := GetPath me name in
  '(fi, err) <- call (os_Lstat fullPath) ;;
  if not_nil err then Ret (None, ENOENT)
  else
    let out := Attr.new in
    fi' <- deref fi ;;
    let out := CopyFileInfo fi' out in
    Ret (Some out, OK).

(** The function literal started by [OpenDir]. *)
Definition OpenDir_producer (f : option os_File) (want : Z) (output : Chan)
  : Prog unit :=
  For
    ('(infos, err) <- call (File_Readdir f want) ;;
     for_range infos (fun info =>
       call (chan_send output
               {| DirEntry.Name := FileInfo.Name info;
                  DirEntry.Mode := FileInfo.Mode info |})) ;;
     if len infos <? want then Ret Break
     else if not_nil err then
       (* TODO - how to signal error *)
       Ret Break
     else Ret Next)
    (call (chan_close output) ;;
     call (File_Close f) ;;
     Ret tt).

Definition OpenDir (me : t) (name : string)
  : Prog (option Chan * Status) :=
  '(f, err) <- call (os_Open (GetPath me name)) ;;
  if not_nil err then Ret (None, OsErrorToErrno err)
  else
    let want := 500 in
    output <- call (make_chan want) ;;
    call (go (OpenDir_func1 f want output)) ;;
    Ret (Some output, OK).

Definition Open (me : t) (name : string) (flags : Z)
  : Prog (File * Status) :=
  '(f, err) <- call (os_OpenFile (GetPath me name) (int flags) 0) ;;
  if not_nil err then Ret (None, OsErrorToErrno err)
  else Ret (Some {| LoopbackFile.file := f |}, OK).

Definition Chmod (me : t) (path : string) (mode : Z) : Prog Status :=
  err <- call (os_Chmod (GetPath me path) mode) ;;
  Ret (OsErrorToErrno err).

Definition Chown (me : t) (path : string) (uid gid : Z) : Prog Status :=
  err <- call (os_Chown (GetPath me path) (int uid) (int gid)) ;;
  Ret (OsErrorToErrno err).

Definition Truncate (me : t) (path : string) (offset : Z) : Prog Status :=
  err <- call (os_Truncate (GetPath me path) (int64 offset)) ;;
  Ret (OsErrorToErrno err).

Definition Utimens (me : t) (path : string) (AtimeNs MtimeNs : Z)
  : Prog Status :=
  err <- call (os_Chtimes (GetPath me path) (int64 AtimeNs) (int64 MtimeNs)) ;;
  Ret (OsErrorToErrno err).

Definition Readlink (me : t) (name : string) : Prog (string * Status) :=
  '(f, err) <- call (os_Readlink (GetPath me name)) ;;
  Ret (f, OsErrorToErrno err).

Definition Mknod (me : t) (name : string) (mode dev : Z) : Prog Status :=
  errno <- call (syscall_Mknod (GetPath me name) mode (int dev)) ;;
  Ret (Status_of_int errno).

Definition Mkdir (me : t) (path : string) (mode : Z) : Prog Status :=
  err <- call (os_Mkdir (GetPath me path) mode) ;;
  Ret (OsErrorToErrno err).

(** Don't use os.Remove, it removes twice (unlink followed by rmdir). *)
Definition Unlink (me : t) (name : string) : Prog Status :=
  errno <- call (syscall_Unlink (GetPath me name)) ;;
  Ret (Status_of_int errno).

Definition Rmdir (me : t) (name : string) : Prog Status :=
  errno <- call (syscall_Rmdir (GetPath me name)) ;;
  Ret (Status_of_int errno).

Definition Symlink (me : t) (pointedTo linkName : string) : Prog Status :=
  err <- call (os_Symlink pointedTo (GetPath me linkName)) ;;
  Ret (OsErrorToErrno err).

Definition Rename (me : t) (oldPath newPath : string) : Prog Status :=
  err <- call (os_Rename (GetPath me oldPath) (GetPath me newPath)) ;;
  Ret (OsErrorToErrno err).

Definition Link (me : t) (orig newName : string) : Prog Status :=
  err <- call (os_Link (GetPath me orig) (GetPath me newName)) ;;
  Ret (OsErrorToErrno err).

Definition Access (me : t) (name : string) (mode : Z) : Prog Status :=
  errno <- call (syscall_Access (GetPath me name) mode) ;;
  Ret (Status_of_int errno).

Definition Create (me : t) (path : string) (flags mode : Z)
  : Prog (File * Status) :=
  '(f, err) <-
    call (os_OpenFile (GetPath me path) (Z.lor (int flags) O_CREATE) mode) ;;
  Ret (Some {| LoopbackFile.file := f |}, OsErrorToErrno err).

Definition GetXAttr (me : t) (name attr : string)
  : Prog (list Byte.byte * Status) :=
  '(data, errNo) <- call (fuse_GetXAttr (GetPath me name) attr) ;;
  Ret (data, Status_of_int errNo).

Definition ListXAttr (me : t) (name : string)
  : Prog (list string * Status) :=
  '(data, errNo) <- call (fuse_ListXAttr (GetPath me name)) ;;
  Ret (data, Status_of_int errNo).

Definition RemoveXAttr (me : t) (name attr : string) : Prog Status :=
  errno <- call (fuse_Removexattr (GetPath me name) attr) ;;
  Ret (Status_of_int errno).
End Methods.
End LoopbackFileSystem.

(** The body of each goroutine. *)
Definition goroutine (g : Goroutine) : Prog unit :=
  match g with
  | OpenDir_func1 f want output =>
      LoopbackFileSystem.OpenDir_producer f want output
  end.

(** ** Reading a trace *)

(** The goroutines started, the entries sent on a channel, the answers of
    the directory fetches, in the order of the trace.  A channel is a
    first-in first-out queue: a consumer that drains [output] receives the
    entries [delivered output t] in that order, and then finds it closed. *)
Definition started_by (e : Event) : list Goroutine :=
  match e with
  | Ev c _ =>
      match c with
      | go g => [g]
      | _ => []
      end
  end.

Definition sent_by (output : Chan) (e : Event) : list DirEntry.t :=
  match e with
  | Ev c _ =>
      match c with
      | chan_send c' entry => if Nat.eqb c' output then [entry] else []
      | _ => []
      end
  end.

Definition fetched_by (e : Event)
  : list (list FileInfo.t * option Error) :=
  match e with
  | Ev c r =>
      match c in Call R return R -> list (list FileInfo.t * option Error) with
      | File_Readdir _ _ => fun r => [r]
      | _ => fun _ => []
      end r
  end.

Definition started (t : list Event) : list Goroutine :=
  flat_map started_by t.

Definition delivered (output : Chan) (t : list Event) : list DirEntry.t :=
  flat_map (sent_by output) t.

Definition fetched (t : list Event) : list (list FileInfo.t * option Error) :=
  flat_map fetched_by t.

(** A trace without the answers: the calls issued. *)
Inductive Issued : Type :=
| Is {R} (c : Call R).

Definition issued (t : list Event) : list Issued :=
  map (fun e => match e with Ev c _ => Is c end) t.

(** The entry the producer builds from a snapshot. *)
Definition entry_of (info : FileInfo.t) : DirEntry.t :=
  {| DirEntry.Name := FileInfo.Name info;
     DirEntry.Mode := FileInfo.Mode info |}.

(** Calls that can remove a directory: [os.Remove] (unlink followed by
    rmdir) and [syscall.Rmdir]. *)
Definition may_remove_directory (i : Issued) : bool :=
  match i with
  | Is c =>
      match c with
      | os_Remove _ => true
      | syscall_Rmdir _ => true
      | _ => false
      end
  end.

(** Calls that set up a listing: making the queue, starting the producer. *)
Definition sets_up_listing (i : Issued) : bool :=
  match i with
  | Is c =>
      match c with
      | make_chan _ => true
      | go _ => true
      | _ => false
      end
  end.

(** Calls that resolve a path. *)
Definition takes_path (i : Issued) : bool :=
  match i with
  | Is c =>
      match c with
      | File_Readdir _ _ | File_ReadAt _ _ _ | File_WriteAt _ _ _
      | File_Close _ | File_Fd _ | File_Chmod _ _ | File_Chown _ _ _
      | File_Stat _ | syscall_Fsync _ | syscall_Ftruncate _ _
      | AllocBuffer _ _ | make_chan _ | chan_send _ _ | chan_close _
      | go _ => false
      | _ => true
      end
  end.

(** The calls made on the host file [f] or on a descriptor. *)
Definition handle_level (f : option os_File) {R} (c : Call R) : Prop :=
  match c with
  | File_Fd f' => f' = f
  | File_Chmod f' _ => f' = f
  | File_Chown f' _ _ => f' = f
  | File_Stat f' => f' = f
  | syscall_Ftruncate _ _ => True
  | _ => False
  end.

(** [handle_determined h f same]: on worlds related by [same], the host
    answers the handle-level calls on [f] alike, and they stay related. *)
Definition handle_determined (h : Env) (f : option os_File)
    (same : World h -> World h -> Prop) : Prop :=
  forall R (c : Call R) w1 w2,
    handle_level f c -> same w1 w2 ->
    fst (respond h c w1) = fst (respond h c w2)
    /\ same (snd (respond h c w1)) (snd (respond h c w2)).

(** ** The status an answer stands for

    [reported e]: the translation of the success or failure the host's
    answer in [e] carries: [OsErrorToErrno] of the error of a call of
    package os or of a file method, the errno itself for a system call; an
    end-of-file of a read stands for [OK].  Calls that cannot fail report
    nothing. *)
Definition reported (e : Event) : list Status :=
  match e with
  | Ev c r =>
      match c in Call R return R -> list Status with
      | os_Lstat _ => fun r => [OsErrorToErrno (snd r)]
      | os_Open _ => fun r => [OsErrorToErrno (snd r)]
      | os_OpenFile _ _ _ => fun r => [OsErrorToErrno (snd r)]
      | os_Chmod _ _ => fun r => [OsErrorToErrno r]
      | os_Chown _ _ _ => fun r => [OsErrorToErrno r]
      | os_Truncate _ _ => fun r => [OsErrorToErrno r]
      | os_Chtimes _ _ _ => fun r => [OsErrorToErrno r]
      | os_Readlink _ => fun r => [OsErrorToErrno (snd r)]
      | os_Mkdir _ _ => fun r => [OsErrorToErrno r]
      | os_Symlink _ _ => fun r => [OsErrorToErrno r]
      | os_Rename _ _ => fun r => [OsErrorToErrno r]
      | os_Link _ _ => fun r => [OsErrorToErrno r]
      | os_Remove _ => fun r => [OsErrorToErrno r]
      | File_Readdir _ _ => fun r => [OsErrorToErrno (snd r)]
      | File_ReadAt _ _ _ =>
          fun r => [if is_EOF (snd r) then OK else OsErrorToErrno (snd r)]
      | File_WriteAt _ _ _ => fun r => [OsErrorToErrno (snd r)]
      | File_Close _ => fun r => [OsErrorToErrno r]
      | File_Fd _ => fun _ => []
      | File_Chmod _ _ => fun r => [OsErrorToErrno r]
      | File_Chown _ _ _ => fun r => [OsErrorToErrno r]
      | File_Stat _ => fun r => [OsErrorToErrno (snd r)]
      | syscall_Mknod _ _ _ => fun r => [Status_of_int r]
      | syscall_Unlink _ => fun r => [Status_of_int r]
      | syscall_Rmdir _ => fun r => [Status_of_int r]
      | syscall_Access _ _ => fun r => [Status_of_int r]
      | syscall_Fsync _ => fun r => [Status_of_int r]
      | syscall_Ftruncate _ _ => fun r => [Status_of_int r]
      | fuse_GetXAttr _ _ => fun r => [Status_of_int (snd r)]
      | fuse_ListXAttr _ => fun r => [Status_of_int (snd r)]
      | fuse_Removexattr _ _ => fun r => [Status_of_int r]
      | AllocBuffer _ _ => fun _ => []
      | make_chan _ => fun _ => []
      | chan_send _ _ => fun _ => []
      | chan_close _ => fun _ => []
      | go _ => fun _ => []
      end r
  end.

Definition reports (t : list Event) : list Status := flat_map reported t.

(** The operations that return a status, Query-attributes by path apart. *)
Inductive Request : Type :=
| Req_OpenDir (name : string)
| Req_Open (name : string) (flags : Z)
| Req_Chmod (path : string) (mode : Z)
| Req_Chown (path : string) (uid gid : Z)
| Req_Truncate (path : string) (offset : Z)
| Req_Utimens (path : string) (AtimeNs MtimeNs : Z)
| Req_Readlink (name : string)
| Req_Mknod (name : string) (mode dev : Z)
| Req_Mkdir (path : string) (mode : Z)
| Req_Unlink (name : string)
| Req_Rmdir (name : string)
| Req_Symlink (pointedTo linkName : string)
| Req_Rename (oldPath newPath : string)
| Req_Link (orig newName : string)
| Req_Access (name : string) (mode : Z)
| Req_Create (path : string) (flags mode : Z)
| Req_GetXAttr (name attr : string)
| Req_ListXAttr (name : string)
| Req_RemoveXAttr (name attr : string)
| File_Read (f : LoopbackFile.t) (input : ReadIn.t) (buffers : BufferPool)
| File_Write (f : LoopbackFile.t) (input : WriteIn.t) (data : list Byte.byte)
| File_Fsync (f : LoopbackFile.t)
| File_Truncate (f : LoopbackFile.t) (size : Z)
| File_Chmod' (f : LoopbackFile.t) (mode : Z)
| File_Chown' (f : LoopbackFile.t) (uid gid : Z)
| File_GetAttr (f : LoopbackFile.t).

(** The status of a program that returns a result and a status. *)
Definition status {X} (p : Prog (X * Status)) : Prog Status :=
  r <- p ;; Ret (snd r).

Definition status_of (h : Env) (me : LoopbackFileSystem.t) (req : Request)
  : Prog Status :=
  match req with
  | Req_OpenDir name => status (LoopbackFileSystem.OpenDir h me name)
  | Req_Open name flags => status (LoopbackFileSystem.Open h me name flags)
  | Req_Chmod path mode => LoopbackFileSystem.Chmod h me path mode
  | Req_Chown path uid gid => LoopbackFileSystem.Chown h me path uid gid
  | Req_Truncate path offset => LoopbackFileSystem.Truncate h me path offset
  | Req_Utimens path a m => LoopbackFileSystem.Utimens h me path a m
  | Req_Readlink name => status (LoopbackFileSystem.Readlink h me name)
  | Req_Mknod name mode dev => LoopbackFileSystem.Mknod h me name mode dev
  | Req_Mkdir path mode => LoopbackFileSystem.Mkdir h me path mode
  | Req_Unlink name => LoopbackFileSystem.Unlink h me name
  | Req_Rmdir name => LoopbackFileSystem.Rmdir h me name
  | Req_Symlink a b => LoopbackFileSystem.Symlink h me a b
  | Req_Rename a b => LoopbackFileSystem.Rename h me a b
  | Req_Link a b => LoopbackFileSystem.Link h me a b
  | Req_Access name mode => LoopbackFileSystem.Access h me name mode
  | Req_Create path flags mode =>
      status (LoopbackFileSystem.Create h me path flags mode)
  | Req_GetXAttr name attr =>
      status (LoopbackFileSystem.GetXAttr h me name attr)
  | Req_ListXAttr name => status (LoopbackFileSystem.ListXAttr h me name)
  | Req_RemoveXAttr name attr =>
      LoopbackFileSystem.RemoveXAttr h me name attr
  | File_Read f input buffers => status (LoopbackFile.Read f input buffers)
  | File_Write f input data => status (LoopbackFile.Write f input data)
  | File_Fsync f => LoopbackFile.Fsync f
  | File_Truncate f size => LoopbackFile.Truncate f size
  | File_Chmod' f mode => LoopbackFile.Chmod f mode
  | File_Chown' f uid gid => LoopbackFile.Chown f uid gid
  | File_GetAttr f => status (LoopbackFile.GetAttr f)
  end.

(** [reports_its_status h p fuel w]: when [p] returns a status, that status
    is what the host's answers reported, and one answer reported. *)
Definition reports_its_status (h : Env) (p : Prog Status) (fuel : nat)
    (w : World h) : Prop :=
  forall s,
    outcome (run h p fuel w) = Returned s ->
    reports (trace (run h p fuel w)) = [s].

(** ** A simulated host

    A small host to run the programs on: a table of paths, a table of open
    descriptors, and a list of paths it refuses to look at. *)

Module Sim.
Record Node : Type := {
  info : FileInfo.t;
  data : list Byte.byte;
  entries : list FileInfo.t
}.

Record W : Type := {
  nodes : list (string * Node);
  forbidden : list string;
  handles : list (Z * Node);
  next_fd : Z;
  next_chan : nat
}.

Fixpoint lookup {K V} (eqb : K -> K -> bool) (k : K) (l : list (K * V))
  : option V :=
  match l with
  | [] => None
  | (k', v) :: l' => if eqb k k' then Some v else lookup eqb k l'
  end.

Definition remove {K V} (eqb : K -> K -> bool) (k : K) (l : list (K * V))
  : list (K * V) :=
  filter (fun kv => negb (eqb k (fst kv))) l.

Definition refused (p : string) (w : W) : bool :=
  existsb (String.eqb p) (forbidden w).

Definition EBADF : Z := 9.

(** The error of a path lookup, if it fails. *)
Definition path_error (op p : string) (w : W) : option Error :=
  if refused p w then Some (PathError op p (Errno EACCES))
  else match lookup String.eqb p (nodes w) with
       | Some _ => None
       | None => Some (PathError op p (Errno ENOENT))
       end.

Definition path_errno (p : string) (w : W) : Z :=
  OsErrorToErrno (path_error "" p w).

Definition with_nodes (w : W) (ns : list (string * Node)) : W :=
  {| nodes := ns; forbidden := forbidden w; handles := handles w;
     next_fd := next_fd w; next_chan := next_chan w |}.

Definition with_handles (w : W) (hs : list (Z * Node)) : W :=
  {| nodes := nodes w; forbidden := forbidden w; handles := hs;
     next_fd := next_fd w; next_chan := next_chan w |}.

Definition open_node (n : Node) (w : W) : (option os_File * option Error) * W :=
  ((Some {| fd := next_fd w |}, None),
   {| nodes := nodes w; forbidden := forbidden w;
      handles := (next_fd w, n) :: handles w;
      next_fd := next_fd w + 1; next_chan := next_chan w |}).

Definition open_path (p : string) (flag perm : Z) (w : W)
  : (option os_File * option Error) * W :=
  if refused p w then ((None, Some (PathError "open" p (Errno EACCES))), w)
  else match lookup String.eqb p (nodes w) with
       | Some n => open_node n w
       | None =>
           if Z.testbit flag 6 then
             let n := {| info := FileInfo.Make p 0 perm 0 0 0 1 0 0;
                         data := []; entries := [] |} in
             open_node n (with_nodes w ((p, n) :: nodes w))
           else ((None, Some (PathError "open" p (Errno ENOENT))), w)
       end.

Definition handle_of (f : option os_File) (w : W) : option (Z * Node) :=
  match f with
  | Some f' =>
      match lookup Z.eqb (fd f') (handles w) with
      | Some n => Some (fd f', n)
      | None => None
      end
  | None => None
  end.

Definition update_handle (k : Z) (n : Node) (w : W) : W :=
  with_handles w ((k, n) :: remove Z.eqb k (handles w)).

Definition set_mode (mode : Z) (n : Node) : Node :=
  let i := info n in
  {| info := FileInfo.Make (FileInfo.Name i) (FileInfo.Size i) mode
               (FileInfo.Atime_ns i) (FileInfo.Mtime_ns i)
               (FileInfo.Ctime_ns i) (FileInfo.Nlink i)
               (FileInfo.Uid i) (FileInfo.Gid i);
     data := data n; entries := entries n |}.

Definition set_owner (uid gid : Z) (n : Node) : Node :=
  let i := info n in
  {| info := FileInfo.Make (FileInfo.Name i) (FileInfo.Size i)
               (FileInfo.Mode i) (FileInfo.Atime_ns i) (FileInfo.Mtime_ns i)
               (FileInfo.Ctime_ns i) (FileInfo.Nlink i) uid gid;
     data := data n; entries := entries n |}.

Definition set_size (size : Z) (n : Node) : Node :=
  let i := info n in
  {| info := FileInfo.Make (FileInfo.Name i) size
               (FileInfo.Mode i) (FileInfo.Atime_ns i) (FileInfo.Mtime_ns i)
               (FileInfo.Ctime_ns i) (FileInfo.Nlink i)
               (FileInfo.Uid i) (FileInfo.Gid i);
     data := firstn (Z.to_nat size) (data n); entries := entries n |}.

Definition on_handle (f : option os_File) (change : Node -> Node) (w : W)
  : option Error * W :=
  match handle_of f w with
  | Some (k, n) => (None, update_handle k (change n) w)
  | None => (Some (Errno EBADF), w)
  end.

Definition read_at (f : option os_File) (b : list Byte.byte) (off : Z) (w : W)
  : list Byte.byte * Z * option Error :=
  match handle_of f w with
  | Some (_, n) =>
      let got := firstn (List.length b) (skipn (Z.to_nat off) (data n)) in
      (got, len got, if len got <? len b then Some EOF else None)
  | None => ([], 0, Some (Errno EBADF))
  end.

Definition readdir (f : option os_File) (count : Z) (w : W)
  : (list FileInfo.t * option Error) * W :=
  match handle_of f w with
  | Some (k, n) =>
      ((firstn (Z.to_nat count) (entries n), None),
       update_handle k
         {| info := info n; data := data n;
            entries := skipn (Z.to_nat count) (entries n) |} w)
  | None => (([], Some (Errno EBADF)), w)
  end.

Definition rename (old new : string) (w : W) : option Error * W :=
  match path_error "rename" old w with
  | Some e => (Some e, w)
  | None =>
      match lookup String.eqb old (nodes w) with
      | Some n =>
          (None,
           with_nodes w
             ((new, n) :: remove String.eqb new (remove String.eqb old (nodes w))))
      | None => (None, w)
      end
  end.

Definition unlink (p : string) (w : W) : Z * W :=
  match path_error "unlink" p w with
  | Some e => (OsErrorToErrno (Some e), w)
  | None => (0, with_nodes w (remove String.eqb p (nodes w)))
  end.

Definition answer R (c : Call R) (w : W) : R * W :=
  match c in Call R0 return R0 * W with
  | os_Lstat p =>
      match path_error "lstat" p w with
      | Some e => ((None, Some e), w)
      | None =>
          (match lookup String.eqb p (nodes w) with
           | Some n => (Some (info n), None)
           | None => (None, None)
           end, w)
      end
  | os_Open p => open_path p 0 0 w
  | os_OpenFile p flag perm => open_path p flag perm w
  | os_Chmod p _ => (path_error "chmod" p w, w)
  | os_Chown p _ _ => (path_error "chown" p w, w)
  | os_Truncate p _ => (path_error "truncate" p w, w)
  | os_Chtimes p _ _ => (path_error "chtimes" p w, w)
  | os_Readlink p => ((p, path_error "readlink" p w), w)
  | os_Mkdir p _ => (None, w)
  | os_Symlink _ _ => (None, w)
  | os_Rename old new => rename old new w
  | os_Link old _ => (path_error "link" old w, w)
  | os_Remove p => (path_error "remove" p w, w)
  | File_Readdir f count => readdir f count w
  | File_ReadAt f b off => (read_at f b off w, w)
  | File_WriteAt f b _ =>
      match handle_of f w with
      | Some _ => ((len b, None), w)
      | None => ((0, Some (Errno EBADF)), w)
      end
  | File_Close f =>
      match handle_of f w with
      | Some (k, _) => (None, with_handles w (remove Z.eqb k (handles w)))
      | None => (Some (Errno EBADF), w)
      end
  | File_Fd f => (match f with Some f' => fd f' | None => -1 end, w)
  | File_Chmod f mode => on_handle f (set_mode mode) w
  | File_Chown f uid gid => on_handle f (set_owner uid gid) w
  | File_Stat f =>
      match handle_of f w with
      | Some (_, n) => ((Some (info n), None), w)
      | None => ((None, Some (Errno EBADF)), w)
      end
  | syscall_Mknod p _ _ => (0, w)
  | syscall_Unlink p => unlink p w
  | syscall_Rmdir p => (path_errno p w, w)
  | syscall_Access p _ => (path_errno p w, w)
  | syscall_Fsync k =>
      (match lookup Z.eqb k (handles w) with Some _ => 0 | None => EBADF end, w)
  | syscall_Ftruncate k size =>
      match lookup Z.eqb k (handles w) with
      | Some n => (0, update_handle k (set_size size n) w)
      | None => (EBADF, w)
      end
  | fuse_GetXAttr p _ => (([], path_errno p w), w)
  | fuse_ListXAttr p => (([], path_errno p w), w)
  | fuse_Removexattr p _ => (path_errno p w, w)
  | AllocBuffer _ size => (repeat Byte.x00 (Z.to_nat size), w)
  | make_chan _ =>
      (next_chan w,
       {| nodes := nodes w; forbidden := forbidden w; handles := handles w;
          next_fd := next_fd w; next_chan := S (next_chan w) |})
  | chan_send _ _ => (tt, w)
  | chan_close _ => (tt, w)
  | go _ => (tt, w)
  end.

(** Paths are joined with a single separator. *)
Definition Join (a b : string) : string := a ++ "/" ++ b.

Definition env : Env :=
  {| World := W; respond := answer; filepath_Join := Join |}.
End Sim.

(** ** Two hosts for directory listings *)

(** An answer to every call that reports success and carries nothing. *)
Definition quiet R (c : Call R) : R :=
  match c in Call R0 return R0 with
  | os_Lstat _ => (None, None)
  | os_Open _ => (Some {| fd := 3 |}, None)
  | os_OpenFile _ _ _ => (Some {| fd := 3 |}, None)
  | os_Chmod _ _ => None
  | os_Chown _ _ _ => None
  | os_Truncate _ _ => None
  | os_Chtimes _ _ _ => None
  | os_Readlink _ => (EmptyString, None)
  | os_Mkdir _ _ => None
  | os_Symlink _ _ => None
  | os_Rename _ _ => None
  | os_Link _ _ => None
  | os_Remove _ => None
  | File_Readdir _ _ => ([], None)
  | File_ReadAt _ _ _ => ([], 0, None)
  | File_WriteAt _ b _ => (len b, None)
  | File_Close _ => None
  | File_Fd f => match f with Some f' => fd f' | None => -1 end
  | File_Chmod _ _ => None
  | File_Chown _ _ _ => None
  | File_Stat _ => (None, None)
  | syscall_Mknod _ _ _ => 0
  | syscall_Unlink _ => 0
  | syscall_Rmdir _ => 0
  | syscall_Access _ _ => 0
  | syscall_Fsync _ => 0
  | syscall_Ftruncate _ _ => 0
  | fuse_GetXAttr _ _ => ([], 0)
  | fuse_ListXAttr _ => ([], 0)
  | fuse_Removexattr _ _ => 0
  | AllocBuffer _ size => repeat Byte.x00 (Z.to_nat size)
  | make_chan _ => O
  | chan_send _ _ => tt
  | chan_close _ => tt
  | go _ => tt
  end.

Module Dir.
(** A host with one directory open: its world is the list of the entries
    not fetched yet, and a fetch of [count] entries takes the first [count]
    of them. *)
Definition W : Type := list FileInfo.t.

Definition answer R (c : Call R) (w : W) : R * W :=
  match c in Call R0 return R0 * W with
  | File_Readdir _ count =>
      ((firstn (Z.to_nat count) w, None), skipn (Z.to_nat count) w)
  | c' => (quiet c', w)
  end.

Definition env : Env :=
  {| World := W; respond := answer; filepath_Join := Sim.Join |}.

(** [numbered n]: a directory of [n] entries, named by their rank. *)
Definition digit (i : nat) : string :=
  String (Ascii.ascii_of_nat (48 + i mod 10)) EmptyString.

Definition numbered_entry (i : nat) : FileInfo.t :=
  FileInfo.Make
    (digit (i / 1000) ++ digit (i / 100) ++ digit (i / 10) ++ digit i)
    0 420 0 0 0 1 0 0.

Definition numbered (n : nat) : W := map numbered_entry (seq 0 n).
End Dir.

Module Script.
(** A host whose directory fetches follow a script: each fetch answers with
    the next batch and error of the script, whatever they are. *)
Definition W : Type := list (list FileInfo.t * option Error).

Definition answer R (c : Call R) (w : W) : R * W :=
  match c in Call R0 return R0 * W with
  | File_Readdir _ _ =>
      match w with
      | [] => (([], None), [])
      | b :: w' => (b, w')
      end
  | c' => (quiet c', w)
  end.

Definition env : Env :=
  {| World := W; respond := answer; filepath_Join := Sim.Join |}.
End Script.

(** ** What a run of the producer looks like

    [and_then r k]: the run [r] continued by [k] when it returned. *)
Definition and_then {W A B} (r : Run W A) (k : A -> W -> Run W B)
  : Run W B :=
  match outcome r with
  | Returned a => after (trace r) (k a (world r))
  | Panicked msg =>
      {| outcome := Panicked msg; trace := trace r; world := world r |}
  | OutOfFuel =>
      {| outcome := OutOfFuel; trace := trace r; world := world r |}
  end.

Definition send_event (output : Chan) (info : FileInfo.t) : Event :=
  Ev (chan_send output (entry_of info)) tt.

Section Producer.
Variable h : Env.
Variable f : option os_File.
Variable want : Z.
Variable output : Chan.

(** The world after the entries of a batch were sent. *)
Definition sending (infos : list FileInfo.t) (w : World h) : World h :=
  fold_left
    (fun w' info => snd (respond h (chan_send output (entry_of info)) w'))
    infos w.

(** The producer's way out: the queue is closed, then the directory. *)
Definition closing (w : World h) : Run (World h) unit :=
  let w1 := snd (respond h (chan_close output) w) in
  let a := respond h (File_Close f) w1 in
  {| outcome := Returned tt;
     trace := [Ev (chan_close output) tt; Ev (File_Close f) (fst a)];
     world := snd a |}.

(** The producer's loop, one fetch at a time. *)
Fixpoint produce (n : nat) (w : World h) : Run (World h) unit :=
  match n with
  | O => {| outcome := OutOfFuel; trace := []; world := w |}
  | S n' =>
      let a := respond h (File_Readdir f want) w in
      let infos := fst (fst a) in
      let w1 := sending infos (snd a) in
      after (Ev (File_Readdir f want) (fst a) :: map (send_event output) infos)
        (if len infos <? want then closing w1
         else if not_nil (snd (fst a)) then closing w1
         else produce n' w1)
  end.
End Producer.

(** The calls of one batch: the fetch, then one send per entry. *)
Definition batch_calls (f : option os_File) (want : Z) (output : Chan)
    (b : list FileInfo.t * option Error) : list Issued :=
  Is (File_Readdir f want)
  :: map (fun info => Is (chan_send output (entry_of info))) (fst b).

(** ** A host that serves a directory

    [serves_directory h f output pending]: in every world [w] of [h], the
    directory open as [f] still has the entries [pending w] to give; a fetch
    of 500 takes the first 500 of them, without error, and a send on
    [output] leaves them alone. *)
Definition serves_directory (h : Env) (f : option os_File) (output : Chan)
    (pending : World h -> list FileInfo.t) : Prop :=
  (forall w,
      fst (respond h (File_Readdir f 500) w)
      = (firstn 500 (pending w), None)
      /\ pending (snd (respond h (File_Readdir f 500) w))
         = skipn 500 (pending w))
  /\ (forall e w, pending (snd (respond h (chan_send output e) w)) = pending w).

(** ** Worlds of the simulated host used below *)

Definition fs0 : LoopbackFileSystem.t :=
  LoopbackFileSystem.NewLoopbackFileSystem "/mnt".

Definition fi_a : FileInfo.t := FileInfo.Make "a" 3 420 1 2 3 1 1000 1000.

Definition w0 : Sim.W :=
  {| Sim.nodes :=
       [("/mnt/a",
         {| Sim.info := fi_a;
            Sim.data := [Byte.x61; Byte.x62; Byte.x63];
            Sim.entries := [] |})];
     Sim.forbidden := ["/mnt/secret"];
     Sim.handles := [];
     Sim.next_fd := 3;
     Sim.next_chan := 0 |}.

(** [w0] after "/mnt/a" was opened as descriptor 3. *)
Definition w0_open : Sim.W :=
  snd (Sim.answer (os_OpenFile "/mnt/a" 0 0) w0).

Definition file3 : LoopbackFile.t :=
  {| LoopbackFile.file := Some {| fd := 3 |} |}.

(** [w0_open] after "/mnt/a" was renamed to "/mnt/b" and then unlinked. *)
Definition w0_gone : Sim.W :=
  snd (Sim.answer (syscall_Unlink "/mnt/b")
         (snd (Sim.answer (os_Rename "/mnt/a" "/mnt/b") w0_open))).

(** A listing whose second fetch fails: two full batches, the second one
    answered together with an I/O error, and entries left behind it. *)
Definition faulty_listing : Script.W :=
  [(Dir.numbered 500, None);
   (Dir.numbered 500, Some (Errno EIO));
   (Dir.numbered 7, None)].

(** ** More ways to read a trace *)

(** The paths a call hands to the host. *)
Definition paths_of (i : Issued) : list string :=
  match i with
  | Is c =>
      match c with
      | os_Lstat p => [p]
      | os_Open p => [p]
      | os_OpenFile p _ _ => [p]
      | os_Chmod p _ => [p]
      | os_Chown p _ _ => [p]
      | os_Truncate p _ => [p]
      | os_Chtimes p _ _ => [p]
      | os_Readlink p => [p]
      | os_Mkdir p _ => [p]
      | os_Symlink old new => [old; new]
      | os_Rename old new => [old; new]
      | os_Link old new => [old; new]
      | os_Remove p => [p]
      | syscall_Mknod p _ _ => [p]
      | syscall_Unlink p => [p]
      | syscall_Rmdir p => [p]
      | syscall_Access p _ => [p]
      | fuse_GetXAttr p _ => [p]
      | fuse_ListXAttr p => [p]
      | fuse_Removexattr p _ => [p]
      | _ => []
      end
  end.

(** Calls that end a listing: closing the queue, closing the directory. *)
Definition ends_listing (i : Issued) : bool :=
  match i with
  | Is c =>
      match c with
      | chan_close _ => true
      | File_Close _ => true
      | _ => false
      end
  end.

(** A batch after which the producer's loop goes round again: as many
    entries as asked for, at least, and no error. *)
Definition goes_on (want : Z) (b : list FileInfo.t * option Error) : bool :=
  negb (len (fst b) <? want) && negb (not_nil (snd b)).

Module Endless.
(** A host whose directory never ends: every fetch answers with as many
    entries as were asked for, and no error; its world counts the fetches. *)
Definition W : Type := nat.

Definition answer R (c : Call R) (w : W) : R * W :=
  match c in Call R0 return R0 * W with
  | File_Readdir _ count => ((Dir.numbered (Z.to_nat count), None), S w)
  | c' => (quiet c', w)
  end.

Definition env : Env :=
  {| World := W; respond := answer; filepath_Join := Sim.Join |}.
End Endless.

(** A directory of 1000 entries: two full batches and nothing more. *)
Definition thousand : Dir.W := Dir.numbered 1000.

(** ** Batches as the host gives them *)

Section HostBatches.
Variable h : Env.
Variable f : option os_File.
Variable want : Z.
Variable output : Chan.

(** The host's answers to [k] fetches in a row from the world [w], the
    entries of each batch being sent before the next fetch, and the world
    after them. *)
Fixpoint batches_from (k : nat) (w : World h)
  : list (list FileInfo.t * option Error) * World h :=
  match k with
  | O => ([], w)
  | S k' =>
      let a := respond h (File_Readdir f want) w in
      let rest := batches_from k' (sending h output (fst (fst a)) (snd a)) in
      (fst a :: fst rest, snd rest)
  end.
End HostBatches.

(** The events of one batch: the fetch with its answer, then the sends. *)
Definition batch_events (f : option os_File) (want : Z) (output : Chan)
    (b : list FileInfo.t * option Error) : list Event :=
  Ev (File_Readdir f want) b :: map (send_event output) (fst b).

(** The paths the caller gives with a request, in the order of the
    arguments. *)
Definition caller_paths (req : Request) : list string :=
  match req with
  | Req_OpenDir name => [name]
  | Req_Open name _ => [name]
  | Req_Chmod path _ => [path]
  | Req_Chown path _ _ => [path]
  | Req_Truncate path _ => [path]
  | Req_Utimens path _ _ => [path]
  | Req_Readlink name => [name]
  | Req_Mknod name _ _ => [name]
  | Req_Mkdir path _ => [path]
  | Req_Unlink name => [name]
  | Req_Rmdir name => [name]
  | Req_Symlink pointedTo linkName => [pointedTo; linkName]
  | Req_Rename oldPath newPath => [oldPath; newPath]
  | Req_Link orig newName => [orig; newName]
  | Req_Access name _ => [name]
  | Req_Create path _ _ => [path]
  | Req_GetXAttr name _ => [name]
  | Req_ListXAttr name => [name]
  | Req_RemoveXAttr name _ => [name]
  | File_Read _ _ _ => []
  | File_Write _ _ _ => []
  | File_Fsync _ => []
  | File_Truncate _ _ => []
  | File_Chmod' _ _ => []
  | File_Chown' _ _ _ => []
  | File_GetAttr _ => []
  end.

(** [w0] with "/mnt/a" refused as well: the file is there, and the host
    denies permission to look at it. *)
Definition w0_locked : Sim.W :=
  {| Sim.nodes := Sim.nodes w0;
     Sim.forbidden := ["/mnt/a"; "/mnt/secret"];
     Sim.handles := [];
     Sim.next_fd := 3;
     Sim.next_chan := 0 |}.

(** ** General facts *)

Local Open Scope list_scope.

Lemma after_nil W A (r : Run W A) : after [] r = r.
Proof. destruct r; reflexivity. Qed.

Lemma after_app W A (t1 t2 : list Event) (r : Run W A) :
  after t1 (after t2 r) = after (t1 ++ t2) r.
Proof. unfold after; simpl. now rewrite app_assoc. Qed.

Lemma and_then_after W A B (t : list Event) (r : Run W A)
    (k : A -> W -> Run W B) :
  and_then (after t r) k = after t (and_then r k).
Proof.
  unfold and_then, after; simpl.
  destruct (outcome r); simpl; try reflexivity.
  now rewrite app_assoc.
Qed.

Section RunFacts.
Variable h : Env.

Lemma run_for_and_then A B (body : World h -> Run (World h) Flow)
    (rest : World h -> Run (World h) A) (rest' : World h -> Run (World h) B)
    (g : A -> World h -> Run (World h) B) :
  (forall w, rest' w = and_then (rest w) g) ->
  forall n w, run_for h body rest' n w = and_then (run_for h body rest n w) g.
Proof.
  intros Hrest n; induction n as [|n IH]; intros w; simpl.
  - reflexivity.
  - destruct (outcome (body w)) as [[|]|msg|]; try reflexivity.
    + now rewrite Hrest, and_then_after.
    + now rewrite IH, and_then_after.
Qed.

Lemma run_bind A B (p : Prog A) (g : A -> Prog B) fuel w :
  run h (pbind p g) fuel w
  = and_then (run h p fuel w) (fun a w' => run h (g a) fuel w').
Proof.
  revert B g w; induction p as [A a|A msg|A R c k IH|A body _ k IH];
    intros B g w; simpl.
  - unfold and_then; simpl. now rewrite after_nil.
  - reflexivity.
  - now rewrite IH, and_then_after.
  - apply run_for_and_then. intros w'. apply IH.
Qed.
End RunFacts.

Section ProducerFacts.
Variable h : Env.
Variable f : option os_File.
Variable want : Z.
Variable output : Chan.

Lemma run_sends (infos : list FileInfo.t) fuel w :
  run h (for_range infos (fun info =>
           call (chan_send output
                   {| DirEntry.Name := FileInfo.Name info;
                      DirEntry.Mode := FileInfo.Mode info |}))) fuel w
  = {| outcome := Returned tt;
       trace := map (send_event output) infos;
       world := sending h output infos w |}.
Proof.
  revert w; induction infos as [|info infos IH]; intros w; simpl.
  - reflexivity.
  - rewrite IH. unfold after, send_event, entry_of; simpl.
    now destruct (fst (respond h (chan_send output _) w)).
Qed.

Lemma run_closing fuel w :
  run h (call (chan_close output) ;; call (File_Close f) ;; Ret tt) fuel w
  = closing h f output w.
Proof.
  unfold closing, after; simpl.
  now destruct (fst (respond h (chan_close output) w)).
Qed.

Local Abbreviation fetch_and_send :=
  ('(infos, err) <- call (File_Readdir f want) ;;
   for_range infos (fun info =>
     call (chan_send output
             {| DirEntry.Name := FileInfo.Name info;
                DirEntry.Mode := FileInfo.Mode info |})) ;;
   if len infos <? want then Ret Break
   else if not_nil err then Ret Break
   else Ret Next).

Lemma run_fetch_and_send fuel w :
  run h fetch_and_send fuel w
  = let a := respond h (File_Readdir f want) w in
    {| outcome :=
         Returned (if len (fst (fst a)) <? want then Break
                   else if not_nil (snd (fst a)) then Break else Next);
       trace := Ev (File_Readdir f want) (fst a)
                :: map (send_event output) (fst (fst a));
       world := sending h output (fst (fst a)) (snd a) |}.
Proof.
  cbn [bind Monad_Prog pbind call run].
  destruct (respond h (File_Readdir f want) w) as [[infos err] w1].
  cbn [fst snd].
  rewrite run_bind, run_sends.
  unfold and_then, after; cbn [outcome trace world].
  destruct (len infos <? want); [|destruct (not_nil err)];
    cbn; now rewrite app_nil_r.
Qed.

(** The producer runs as [produce] does. *)
Lemma run_producer fuel w :
  run h (LoopbackFileSystem.OpenDir_producer f want output) fuel w
  = produce h f want output fuel w.
Proof.
  unfold LoopbackFileSystem.OpenDir_producer.
  cbn [run].
  generalize fuel at 1 2 as fuel'.
  intros fuel'; revert w.
  induction fuel as [|n IH]; intros w.
  - reflexivity.
  - cbn [run_for produce].
    rewrite run_fetch_and_send.
    cbn [outcome trace world].
    destruct (len (fst (fst (respond h (File_Readdir f want) w))) <? want);
      [|destruct (not_nil (snd (fst (respond h (File_Readdir f want) w))))].
    + now rewrite run_closing.
    + now rewrite run_closing.
    + now rewrite IH.
Qed.
End ProducerFacts.

(** ** Reading the trace of a producer *)

Lemma fetched_app t1 t2 : fetched (t1 ++ t2) = fetched t1 ++ fetched t2.
Proof. apply flat_map_app. Qed.

Lemma delivered_app output t1 t2 :
  delivered output (t1 ++ t2) = delivered output t1 ++ delivered output t2.
Proof. apply flat_map_app. Qed.

Lemma issued_app t1 t2 : issued (t1 ++ t2) = issued t1 ++ issued t2.
Proof. apply map_app. Qed.

Lemma fetched_sends output infos : fetched (map (send_event output) infos) = [].
Proof. induction infos; simpl; auto. Qed.

Lemma delivered_sends output infos :
  delivered output (map (send_event output) infos) = map entry_of infos.
Proof.
  induction infos as [|info infos IH]; simpl; [reflexivity|].
  now rewrite Nat.eqb_refl, IH.
Qed.

Lemma issued_sends output infos :
  issued (map (send_event output) infos)
  = map (fun info => Is (chan_send output (entry_of info))) infos.
Proof. unfold issued. now rewrite map_map. Qed.

Section ProduceFacts.
Variable h : Env.
Variable f : option os_File.
Variable want : Z.
Variable output : Chan.

Lemma produce_step n w :
  produce h f want output (S n) w
  = let a := respond h (File_Readdir f want) w in
    let w1 := sending h output (fst (fst a)) (snd a) in
    after (Ev (File_Readdir f want) (fst a)
           :: map (send_event output) (fst (fst a)))
      (if (len (fst (fst a)) <? want) || not_nil (snd (fst a))
       then closing h f output w1
       else produce h f want output n w1).
Proof.
  cbn [produce].
  destruct (len (fst (fst (respond h (File_Readdir f want) w))) <? want);
    reflexivity.
Qed.

(** What every run of the producer's loop is made of. *)
Lemma produce_shape n w :
  let r := produce h f want output n w in
  (outcome r = Returned tt \/ outcome r = OutOfFuel)
  /\ (outcome r = Returned tt ->
      issued (trace r)
      = flat_map (batch_calls f want output) (fetched (trace r))
        ++ [Is (chan_close output); Is (File_Close f)])
  /\ delivered output (trace r)
     = flat_map (fun b => map entry_of (fst b)) (fetched (trace r))
  /\ (forall pre infos e post,
        fetched (trace r) = pre ++ (infos, Some e) :: post ->
        post = [] /\ outcome r = Returned tt).
Proof.
  revert w; induction n as [|n IH]; intros w.
  - cbn. split; [auto|split; [discriminate|split; [reflexivity|]]].
    intros pre infos e post H; now destruct pre.
  - rewrite produce_step.
    destruct (respond h (File_Readdir f want) w) as [[infos err] w1].
    cbn [fst snd]; cbv zeta.
    set (t0 := Ev (File_Readdir f want) (infos, err)
               :: map (send_event output) infos).
    assert (Hf : fetched t0 = [(infos, err)]).
    { unfold t0. change (fetched (?e :: ?t)) with (fetched_by e ++ fetched t).
      now rewrite fetched_sends. }
    assert (Hd : delivered output t0 = map entry_of infos).
    { unfold t0.
      change (delivered output (?e :: ?t))
        with (sent_by output e ++ delivered output t).
      now rewrite delivered_sends. }
    assert (Hi : issued t0 = batch_calls f want output (infos, err)).
    { unfold t0, batch_calls. cbn [issued map fst].
      fold (issued (map (send_event output) infos)).
      now rewrite issued_sends. }
    destruct ((len infos <? want) || not_nil err) eqn:Hstop.
    + unfold closing, after; cbn [outcome trace world].
      rewrite fetched_app, delivered_app, issued_app, Hf, Hd, Hi.
      cbn. rewrite !app_nil_r.
      split; [auto|split; [reflexivity|split; [reflexivity|]]].
      intros pre infos' e post H.
      destruct pre as [|b [|b' pre]]; try discriminate H.
      injection H as _ _ <-. auto.
    + specialize (IH (sending h output infos w1)).
      cbv zeta in IH. destruct IH as (Hout & Hiss & Hdel & Herr).
      unfold after; cbn [outcome trace world].
      rewrite fetched_app, delivered_app, issued_app, Hf, Hd, Hi, Hdel.
      cbn [flat_map app fst].
      split; [exact Hout|split; [|split; [reflexivity|]]].
      * intros Hr. rewrite (Hiss Hr). now rewrite <- app_assoc.
      * intros pre infos' e post H.
        destruct pre as [|b pre]; cbn in H.
        -- injection H as _ He _. subst err.
           cbn in Hstop. rewrite orb_true_r in Hstop. discriminate.
        -- injection H as _ H. now apply (Herr _ _ _ _ H).
Qed.
End ProduceFacts.

Lemma length_concat_full X (full : list (list X)) k :
  Forall (fun b => List.length b = k) full ->
  List.length (List.concat full) = (k * List.length full)%nat.
Proof.
  induction 1 as [|b full Hb _ IH]; simpl; [lia|].
  rewrite length_app, IH, Hb. lia.
Qed.

Lemma delivered_batches (bs : list (list FileInfo.t)) :
  flat_map (fun b : list FileInfo.t * option Error => map entry_of (fst b))
    (map (fun b => (b, @None Error)) bs)
  = map entry_of (List.concat bs).
Proof.
  induction bs as [|b bs IH]; simpl; [reflexivity|].
  now rewrite IH, map_app.
Qed.

Section DirectoryFacts.
Variable h : Env.
Variable f : option os_File.
Variable output : Chan.
Variable pending : World h -> list FileInfo.t.
Hypothesis Hserves : serves_directory h f output pending.

Lemma pending_sending infos w :
  pending (sending h output infos w) = pending w.
Proof.
  revert w; induction infos as [|info infos IH]; intros w.
  - reflexivity.
  - change (sending h output (info :: infos) w)
      with (sending h output infos
              (snd (respond h (chan_send output (entry_of info)) w))).
    rewrite IH. apply Hserves.
Qed.

Lemma produce_directory n w :
  (List.length (pending w) < 500 * n)%nat ->
  let r := produce h f 500 output n w in
  outcome r = Returned tt
  /\ exists full last,
      fetched (trace r) = map (fun b => (b, None)) (full ++ [last])
      /\ Forall (fun b => List.length b = 500%nat) full
      /\ (List.length last < 500)%nat
      /\ List.concat (full ++ [last]) = pending w.
Proof.
  revert w; induction n as [|n IH]; intros w Hn; [lia|].
  cbv zeta. rewrite produce_step.
  destruct Hserves as [Hfetch _].
  destruct (Hfetch w) as [Ha Hp].
  destruct (respond h (File_Readdir f 500) w) as [a w1].
  cbn [fst snd] in *. subst a. cbn [fst snd not_nil]. rewrite orb_false_r.
  cbv zeta.
  assert (Hf0 : forall t,
             fetched ((Ev (File_Readdir f 500) (firstn 500 (pending w), None)
                       :: map (send_event output) (firstn 500 (pending w)))
                      ++ t)
             = (firstn 500 (pending w), None) :: fetched t).
  { intros t. rewrite fetched_app.
    change (fetched (?e :: ?t0)) with (fetched_by e ++ fetched t0).
    now rewrite fetched_sends. }
  destruct (len (firstn 500 (pending w)) <? 500) eqn:Hshort.
  - apply Z.ltb_lt in Hshort. unfold len in Hshort.
    rewrite length_firstn in Hshort.
    assert (Hall : firstn 500 (pending w) = pending w)
      by (apply firstn_all2; lia).
    rewrite Hall in *.
    unfold after, closing; cbn [outcome trace world].
    split; [reflexivity|].
    exists [], (pending w). rewrite Hf0. cbn.
    rewrite app_nil_r. repeat split; auto. lia.
  - apply Z.ltb_ge in Hshort. unfold len in Hshort.
    rewrite length_firstn in Hshort.
    set (w2 := sending h output (firstn 500 (pending w)) w1).
    assert (Hw2 : pending w2 = skipn 500 (pending w))
      by (unfold w2; now rewrite pending_sending).
    destruct (IH w2) as (Hout & full & last & Hf & Hfull & Hlast & Hcat).
    { rewrite Hw2, length_skipn. lia. }
    unfold after; cbn [outcome trace world].
    split; [exact Hout|].
    exists (firstn 500 (pending w) :: full), last.
    rewrite Hf0, Hf. cbn [app map List.concat].
    repeat split; auto.
    + constructor; [rewrite length_firstn; lia|exact Hfull].
    + rewrite Hcat, Hw2. apply firstn_skipn.
Qed.
End DirectoryFacts.

Lemma len_overwrite b filled : len (overwrite b filled) = len b.
Proof.
  unfold len, overwrite. f_equal.
  rewrite length_firstn, length_app, length_skipn. lia.
Qed.

Lemma is_EOF_true err : is_EOF err = true <-> err = Some EOF.
Proof.
  destruct err as [[]|]; cbn; split; intros H; try discriminate; auto.
Qed.

Ltac answer_of h :=
  match goal with
  | |- context [respond h ?c ?w] =>
      let a := fresh "a" in
      let w' := fresh "w" in
      destruct (respond h c w) as [a w']; cbn [fst snd]
  end.

Ltac split_answer :=
  match goal with
  | a : (_ * _)%type |- _ => destruct a; cbn [fst snd]
  end.

(** * The claims *)

Unset Implicit Arguments.

(** ** Integer conversions *)

Lemma int_congruent x : int x mod 2 ^ 32 = x mod 2 ^ 32.
Proof.
  unfold int, wrap_signed.
  change (2 ^ (32 - 1)) with (2 ^ 31).
  rewrite Zminus_mod_idemp_l. f_equal. lia.
Qed.

Lemma int_testbit x i : 0 <= i < 32 -> Z.testbit (int x) i = Z.testbit x i.
Proof.
  intros Hi.
  rewrite <- (Z.mod_pow2_bits_low (int x) 32 i) by lia.
  rewrite <- (Z.mod_pow2_bits_low x 32 i) by lia.
  now rewrite int_congruent.
Qed.

Lemma int_small x : - 2 ^ 31 <= x < 2 ^ 31 -> int x = x.
Proof.
  intros H. unfold int, wrap_signed.
  change (2 ^ (32 - 1)) with (2 ^ 31). change (2 ^ 32) with (2 * 2 ^ 31).
  rewrite Z.mod_small; lia.
Qed.

Lemma int64_small x : - 2 ^ 63 <= x < 2 ^ 63 -> int64 x = x.
Proof.
  intros H. unfold int64, wrap_signed.
  change (2 ^ (64 - 1)) with (2 ^ 63). change (2 ^ 64) with (2 * 2 ^ 63).
  rewrite Z.mod_small; lia.
Qed.

Lemma int64_large x : 2 ^ 63 <= x < 2 ^ 64 -> int64 x = x - 2 ^ 64.
Proof.
  intros H. unfold int64, wrap_signed.
  change (2 ^ (64 - 1)) with (2 ^ 63).
  replace (x + 2 ^ 63) with (x - 2 ^ 63 + 1 * 2 ^ 64) by lia.
  rewrite Z.mod_add by lia.
  rewrite Z.mod_small; lia.
Qed.

(** ** Runs of good batches *)

Lemma goes_on_stop want infos (err : option Error) :
  (len infos <? want) || not_nil err = negb (goes_on want (infos, err)).
Proof.
  unfold goes_on; cbn [fst snd].
  now rewrite negb_andb, !negb_involutive.
Qed.

Lemma fetched_batch_events f want output b t :
  fetched (batch_events f want output b ++ t) = b :: fetched t.
Proof.
  unfold batch_events. rewrite fetched_app.
  change (fetched (?e :: ?t0)) with (fetched_by e ++ fetched t0).
  now rewrite fetched_sends.
Qed.

Lemma fetched_batches f want output bs t :
  fetched (flat_map (batch_events f want output) bs ++ t) = bs ++ fetched t.
Proof.
  induction bs as [|b bs IH]; [reflexivity|].
  cbn [flat_map]. rewrite <- app_assoc, fetched_batch_events.
  now rewrite IH.
Qed.

(** As long as the batches make the loop go round, the producer's loop
    consists of their events. *)
Lemma produce_after_batches (h : Env) f want output k n (w : World h) :
  forallb (goes_on want) (fst (batches_from h f want output k w)) = true ->
  produce h f want output (k + n) w
  = after (flat_map (batch_events f want output)
             (fst (batches_from h f want output k w)))
      (produce h f want output n (snd (batches_from h f want output k w))).
Proof.
  revert w; induction k as [|k IH]; intros w Hgood.
  - cbn [batches_from fst snd flat_map Nat.add]. now rewrite after_nil.
  - change (S k + n)%nat with (S (k + n)). rewrite produce_step.
    cbn [batches_from fst snd] in Hgood |- *. cbv zeta.
    destruct (respond h (File_Readdir f want) w) as [[infos err] w1].
    cbn [fst snd] in Hgood |- *.
    apply andb_true_iff in Hgood. destruct Hgood as [Hgo Hrest].
    rewrite goes_on_stop, Hgo. cbn [negb].
    rewrite (IH _ Hrest), after_app. reflexivity.
Qed.

(** C1, amended. Query-attributes by path: when the host's lstat reports that the
    path does not exist, [GetAttr] returns no Attribute Record and the
    status [ENOENT]; when the host answers with a metadata snapshot,
    [GetAttr] returns [OK] and the record [CopyFileInfo] fills from that
    snapshot, whose size, mode, timestamps, link count and ownership are
    the snapshot's. *)
Theorem GetAttr_absent_or_snapshot (h : Env) (me : LoopbackFileSystem.t)
    (name : string) (fuel : nat) (w : World h) :
  let a := fst (respond h (os_Lstat (LoopbackFileSystem.GetPath h me name)) w) in
  let r := run h (LoopbackFileSystem.GetAttr h me name) fuel w in
  (forall e, snd a = Some e -> native_code e = Some ENOENT ->
     outcome r = Returned (None, ENOENT))
  /\ (forall fi, a = (Some fi, None) ->
      exists out,
        outcome r = Returned (Some out, OK)
        /\ out = CopyFileInfo fi Attr.new
        /\ Attr.Size out = FileInfo.Size fi
        /\ Attr.Mode out = FileInfo.Mode fi
        /\ Attr.Atime_ns out = FileInfo.Atime_ns fi
        /\ Attr.Mtime_ns out = FileInfo.Mtime_ns fi
        /\ Attr.Ctime_ns out = FileInfo.Ctime_ns fi
        /\ Attr.Nlink out = FileInfo.Nlink fi
        /\ Attr.Uid out = FileInfo.Uid fi
        /\ Attr.Gid out = FileInfo.Gid fi).
Proof.
  cbv zeta. unfold LoopbackFileSystem.GetAttr.
  cbn [bind Monad_Prog pbind call run].
  destruct (respond h (os_Lstat (LoopbackFileSystem.GetPath h me name)) w)
    as [[fi err] w1].
  cbn [fst snd]. split.
  - intros e -> _. reflexivity.
  - intros fi' H. injection H as -> ->.
    exists (CopyFileInfo fi' Attr.new). repeat split.
Qed.

Lemma GetAttr_absent_or_snapshot_witness :
  outcome (run Sim.env (LoopbackFileSystem.GetAttr Sim.env fs0 "b") 0 w0)
  = Returned (None, ENOENT)
  /\ exists out,
      outcome (run Sim.env (LoopbackFileSystem.GetAttr Sim.env fs0 "a") 0 w0)
      = Returned (Some out, OK)
      /\ Attr.Size out = 3.
Proof.
  split.
  - apply (proj1 (GetAttr_absent_or_snapshot Sim.env fs0 "b" 0 w0)
             (PathError "lstat" "/mnt/b" (Errno ENOENT)));
      reflexivity.
  - destruct (proj2 (GetAttr_absent_or_snapshot Sim.env fs0 "a" 0 w0)
                fi_a eq_refl) as (out & Hrun & Hout & Hsize & _).
    exists out. split; [exact Hrun|]. rewrite Hsize. reflexivity.
Defined.

(** C1, as stated, fails.  In [w0_locked] the path "/mnt/a" exists on the
    host, and the host's lstat of it fails with permission denied; for
    this path that exists Query-attributes returns no record and
    [ENOENT], not [OK]. *)
Lemma GetAttr_ENOENT_for_existing_path :
  Sim.lookup String.eqb "/mnt/a" (Sim.nodes w0_locked)
  = Some {| Sim.info := fi_a;
            Sim.data := [Byte.x61; Byte.x62; Byte.x63];
            Sim.entries := [] |}
  /\ fst (respond Sim.env (os_Lstat "/mnt/a") w0_locked)
     = (None, Some (PathError "lstat" "/mnt/a" (Errno EACCES)))
  /\ outcome (run Sim.env (LoopbackFileSystem.GetAttr Sim.env fs0 "a") 0
                w0_locked)
     = Returned (None, ENOENT)
  /\ ENOENT <> OK.
Proof.
  split; [reflexivity|]. split; [reflexivity|]. split; [reflexivity|].
  discriminate.
Qed.

(** C2, amended. Every operation that returns a status, Query-attributes by
    path apart, returns the translation of what the host answered to the
    one failing call it made: [OsErrorToErrno] of the host's error, or the
    errno of the system call (a read's end-of-file being [OK]).  The
    translation loses nothing: an error's native code is its status, and an
    errno in the range of the status type is its status. *)
Theorem operations_report_the_host_status (h : Env)
    (me : LoopbackFileSystem.t) (req : Request) (fuel : nat) (w : World h) :
  reports_its_status h (status_of h me req) fuel w
  /\ (forall e c, native_code e = Some c -> OsErrorToErrno (Some e) = c)
  /\ (forall errno, - 2 ^ 31 <= errno < 2 ^ 31 -> Status_of_int errno = errno).
Proof.
  split; [|split].
  - intros s.
    destruct req; unfold status_of, status;
      unfold LoopbackFileSystem.OpenDir, LoopbackFileSystem.Open,
        LoopbackFileSystem.Chmod, LoopbackFileSystem.Chown,
        LoopbackFileSystem.Truncate, LoopbackFileSystem.Utimens,
        LoopbackFileSystem.Readlink, LoopbackFileSystem.Mknod,
        LoopbackFileSystem.Mkdir, LoopbackFileSystem.Unlink,
        LoopbackFileSystem.Rmdir, LoopbackFileSystem.Symlink,
        LoopbackFileSystem.Rename, LoopbackFileSystem.Link,
        LoopbackFileSystem.Access, LoopbackFileSystem.Create,
        LoopbackFileSystem.GetXAttr, LoopbackFileSystem.ListXAttr,
        LoopbackFileSystem.RemoveXAttr, LoopbackFile.Read,
        LoopbackFile.Write, LoopbackFile.Fsync, LoopbackFile.Truncate,
        LoopbackFile.Chmod, LoopbackFile.Chown, LoopbackFile.GetAttr;
      cbn [bind Monad_Prog pbind call run];
      repeat answer_of h; repeat split_answer;
      cbn [bind Monad_Prog pbind call run not_nil];
      repeat answer_of h; repeat split_answer.
    all: repeat match goal with
           | |- context [not_nil ?x] => destruct x; cbn [not_nil]
           | |- context [is_EOF ?x] => destruct (is_EOF x) eqn:Heof
           | |- context [slice_to ?l ?z] =>
               unfold slice_to; destruct ((0 <=? z) && (z <=? len l))
           | |- context [deref ?o] => destruct o; cbn [deref]
           end.
    all: cbn [bind Monad_Prog pbind call run]; repeat answer_of h.
    all: unfold after, reports; cbn; rewrite ?Heof.
    all: intros H; first [discriminate H|injection H as <-; reflexivity].
  - intros e c H. unfold OsErrorToErrno. now rewrite H.
  - intros errno H. unfold Status_of_int, wrap_signed.
    change (2 ^ (32 - 1)) with (2 ^ 31). change (2 ^ 32) with (2 * 2 ^ 31).
    rewrite Z.mod_small; lia.
Qed.

Lemma operations_report_the_host_status_witness :
  reports (trace (run Sim.env
                    (LoopbackFileSystem.Chmod Sim.env fs0 "secret" 420) 0 w0))
  = [EACCES].
Proof.
  apply (proj1 (operations_report_the_host_status Sim.env fs0
                  (Req_Chmod "secret" 420) 0 w0) EACCES).
  reflexivity.
Defined.

(** C2, as stated, fails.  The simulated host refuses "/mnt/secret" with
    permission denied (native code [EACCES]), which is not an absence, and
    Query-attributes by path returns [ENOENT] for it; and a listing whose
    second fetch fails with an I/O error has returned [OK] from [OpenDir],
    the error reaching no status. *)
Lemma GetAttr_hides_permission_denied :
  let getattr := LoopbackFileSystem.GetAttr Sim.env fs0 "secret" in
  let g := OpenDir_func1 (Some {| fd := 3 |}) 500 0%nat in
  let r := run Script.env (LoopbackFileSystem.OpenDir Script.env fs0 "d") 9
             faulty_listing in
  let p := run Script.env (goroutine g) 9 (world r) in
  (~ reports_its_status Sim.env (status getattr) 0 w0)
  /\ snd (fst (respond Sim.env (os_Lstat "/mnt/secret") w0))
     = Some (PathError "lstat" "/mnt/secret" (Errno EACCES))
  /\ reports (trace (run Sim.env getattr 0 w0)) = [EACCES]
  /\ outcome (run Sim.env getattr 0 w0) = Returned (None, ENOENT)
  /\ EACCES <> ENOENT
  /\ outcome r = Returned (Some 0%nat, OK)
  /\ started (trace r) = [g]
  /\ outcome p = Returned tt
  /\ reports (trace p) = [OK; EIO; OK].
Proof.
  cbv zeta. split.
  - intros H. specialize (H ENOENT eq_refl). discriminate H.
  - repeat split; discriminate.
Qed.

(** C3. Listing a directory, on a host that serves the directory open as
    [f] in batches: [OpenDir] returns the queue with [OK] after starting the
    producer, and the producer, given room for one more fetch than the
    number of full batches, returns having sent every entry of the
    directory exactly once and in order: what it sent is the concatenation
    of the batches it fetched, every batch but the last is a full one of
    500, the last is shorter, and the number of fetches is the entry count
    divided by 500, plus one (3 for 1200 entries). *)
Theorem OpenDir_lists_every_entry_once (h : Env)
    (me : LoopbackFileSystem.t) (name : string) (fuel : nat)
    (w w1 w2 : World h) (f : option os_File) (output : Chan)
    (pending : World h -> list FileInfo.t) :
  respond h (os_Open (LoopbackFileSystem.GetPath h me name)) w
  = ((f, None), w1) ->
  respond h (make_chan 500) w1 = (output, w2) ->
  serves_directory h f output pending ->
  let g := OpenDir_func1 f 500 output in
  let w3 := snd (respond h (go g) w2) in
  let es := pending w3 in
  (List.length es / 500 < fuel)%nat ->
  let r := run h (LoopbackFileSystem.OpenDir h me name) fuel w in
  let p := run h (goroutine g) fuel w3 in
  outcome r = Returned (Some output, OK)
  /\ started (trace r) = [g]
  /\ world r = w3
  /\ outcome p = Returned tt
  /\ delivered output (trace p) = map entry_of es
  /\ exists full last,
      fetched (trace p) = map (fun b => (b, None)) (full ++ [last])
      /\ Forall (fun b => List.length b = 500%nat) full
      /\ (List.length last < 500)%nat
      /\ List.concat (full ++ [last]) = es
      /\ List.length (full ++ [last]) = (List.length es / 500 + 1)%nat.
Proof.
  intros Hopen Hmake Hserves g w3 es Hfuel r p.
  assert (Hr : r = {| outcome := Returned (Some output, OK);
                      trace := [Ev (os_Open
                                      (LoopbackFileSystem.GetPath h me name))
                                  (f, None);
                                Ev (make_chan 500) output;
                                Ev (go g) tt];
                      world := w3 |}).
  { unfold r, LoopbackFileSystem.OpenDir.
    cbn [bind Monad_Prog pbind call run].
    rewrite Hopen. cbn [fst snd not_nil pbind run].
    rewrite Hmake. cbn [fst snd]. fold g.
    unfold after; cbn. fold w3.
    now destruct (fst (respond h (go g) w2)). }
  rewrite Hr; cbn [outcome trace world].
  split; [reflexivity|]. split; [reflexivity|]. split; [reflexivity|].
  unfold p; cbn [goroutine g]. rewrite run_producer.
  assert (Hlen : (List.length (pending w3) < 500 * fuel)%nat).
  { fold es. pose proof (Nat.div_mod_eq (List.length es) 500) as Hdiv.
    pose proof (Nat.mod_upper_bound (List.length es) 500) as Hmod. lia. }
  destruct (produce_directory Hserves fuel w3 Hlen)
    as (Hout & full & last & Hf & Hfull & Hlast & Hcat).
  destruct (produce_shape h f 500 output fuel w3) as (_ & _ & Hdel & _).
  split; [exact Hout|]. split.
  - rewrite Hdel, Hf, delivered_batches. now rewrite Hcat.
  - exists full, last. repeat split; auto.
    rewrite length_app; cbn [List.length].
    f_equal. apply Nat.div_unique with (r := List.length last); [exact Hlast|].
    fold es in Hcat. rewrite <- Hcat, concat_app, length_app.
    rewrite (length_concat_full Hfull).
    cbn [List.concat]. rewrite app_nil_r. lia.
Qed.

Lemma OpenDir_lists_every_entry_once_witness :
  let g := OpenDir_func1 (Some {| fd := 3 |}) 500 0%nat in
  let r := run Dir.env (LoopbackFileSystem.OpenDir Dir.env fs0 "d") 3
             (Dir.numbered 1200) in
  let p := run Dir.env (goroutine g) 3 (Dir.numbered 1200) in
  outcome r = Returned (Some 0%nat, OK)
  /\ started (trace r) = [g]
  /\ world r = Dir.numbered 1200
  /\ outcome p = Returned tt
  /\ delivered 0%nat (trace p) = map entry_of (Dir.numbered 1200)
  /\ exists full last,
      fetched (trace p) = map (fun b => (b, None)) (full ++ [last])
      /\ Forall (fun b => List.length b = 500%nat) full
      /\ (List.length last < 500)%nat
      /\ List.concat (full ++ [last]) = Dir.numbered 1200
      /\ List.length (full ++ [last]) = 3%nat.
Proof.
  apply (OpenDir_lists_every_entry_once Dir.env fs0 "d" 3
           (Dir.numbered 1200) (Dir.numbered 1200) (Dir.numbered 1200)
           (Some {| fd := 3 |}) 0%nat (fun w => w) eq_refl eq_refl).
  - split; [intros w; split; reflexivity|intros e w; reflexivity].
  - vm_compute. lia.
Defined.

(** C4. [Read]: the buffer comes from the given pool, asked for with the
    size of the request, and is the one handed to the host's read at the
    request's offset; when the host reports [n] bytes read ([n] within the
    buffer), [Read] returns the first [n] bytes of that buffer as the host
    left it, with [OK] if the host reported end-of-file and with the
    translation of the host's error otherwise; these are the very bytes the
    host stored when [n] counts them. *)
Theorem Read_returns_filled_prefix (h : Env) (me : LoopbackFile.t)
    (input : ReadIn.t) (buffers : BufferPool) (fuel : nat) (w : World h) :
  let a := respond h (AllocBuffer buffers (ReadIn.Size input)) w in
  let call_read :=
    File_ReadAt (LoopbackFile.file me) (fst a) (int64 (ReadIn.Offset input)) in
  let b := respond h call_read (snd a) in
  let filled := fst (fst (fst b)) in
  let n := snd (fst (fst b)) in
  let err := snd (fst b) in
  let slice := overwrite (fst a) filled in
  let r := run h (LoopbackFile.Read me input buffers) fuel w in
  0 <= n <= len (fst a) ->
  trace r = [Ev (AllocBuffer buffers (ReadIn.Size input)) (fst a);
             Ev call_read (fst b)]
  /\ (err = Some EOF ->
      outcome r = Returned (firstn (Z.to_nat n) slice, OK))
  /\ (err <> Some EOF ->
      outcome r = Returned (firstn (Z.to_nat n) slice, OsErrorToErrno err))
  /\ (n = len filled -> firstn (Z.to_nat n) slice = filled).
Proof.
  cbv zeta. unfold LoopbackFile.Read.
  cbn [bind Monad_Prog pbind call run].
  destruct (respond h (AllocBuffer buffers (ReadIn.Size input)) w)
    as [slice0 w1].
  cbn [fst snd].
  destruct (respond h (File_ReadAt (LoopbackFile.file me) slice0
                         (int64 (ReadIn.Offset input))) w1)
    as [[[filled n] err] w2].
  cbn [fst snd]. intros Hn.
  assert (Hin : (0 <=? n) && (n <=? len (overwrite slice0 filled)) = true).
  { rewrite len_overwrite. apply andb_true_iff. split; apply Z.leb_le; lia. }
  split; [|split; [|split]].
  - destruct (is_EOF err); unfold slice_to; rewrite Hin; reflexivity.
  - intros Heof. apply is_EOF_true in Heof. rewrite Heof.
    unfold slice_to; rewrite Hin. reflexivity.
  - intros Hno. destruct (is_EOF err) eqn:Heof.
    + apply is_EOF_true in Heof. contradiction.
    + unfold slice_to; rewrite Hin. reflexivity.
  - intros ->. unfold len in *. rewrite Nat2Z.id. unfold overwrite.
    rewrite firstn_firstn, Nat.min_l by lia.
    rewrite firstn_app, Nat.sub_diag, firstn_all. cbn. apply app_nil_r.
Qed.

Lemma Read_returns_filled_prefix_witness :
  outcome (run Sim.env (LoopbackFile.Read file3 (ReadIn.Make 1 10) 0%nat)
             0 w0_open)
  = Returned ([Byte.x62; Byte.x63], OK).
Proof.
  apply (proj1 (proj2 (Read_returns_filled_prefix Sim.env file3
                         (ReadIn.Make 1 10) 0%nat 0 w0_open
                         ltac:(vm_compute; split; discriminate))));
    reflexivity.
Defined.

(** C5. [Create]: one host open, with the given mode and with the caller's
    flags and the create-if-missing flag or-ed into them: the
    create-if-missing bit is set, and each other bit of the 32 is the
    caller's (the flag is [flags | O_CREATE] itself for flags that fit a
    non-negative [int]); the host's handle comes back wrapped in a new File
    Handle with [OK] when the host succeeded, and the status is the
    translation of the host's error when it failed. *)
Theorem Create_opens_with_O_CREATE (h : Env) (me : LoopbackFileSystem.t)
    (path : string) (flags mode : Z) (fuel : nat) (w : World h) :
  let flag := Z.lor (int flags) O_CREATE in
  let open := os_OpenFile (LoopbackFileSystem.GetPath h me path) flag mode in
  let a := respond h open w in
  let r := run h (LoopbackFileSystem.Create h me path flags mode) fuel w in
  trace r = [Ev open (fst a)]
  /\ Z.testbit flag 6 = true
  /\ (forall i, i <> 6 -> Z.testbit flag i = Z.testbit (int flags) i)
  /\ (forall i, 0 <= i < 32 -> i <> 6 -> Z.testbit flag i = Z.testbit flags i)
  /\ (0 <= flags < 2 ^ 31 -> flag = Z.lor flags O_CREATE)
  /\ (forall f, fst a = (f, None) ->
      outcome r = Returned (Some {| LoopbackFile.file := f |}, OK))
  /\ (forall f e, fst a = (f, Some e) ->
      outcome r = Returned (Some {| LoopbackFile.file := f |},
                            OsErrorToErrno (Some e))).
Proof.
  cbv zeta. unfold LoopbackFileSystem.Create.
  cbn [bind Monad_Prog pbind call run].
  destruct (respond h _ w) as [[f err] w1]. cbn [fst snd].
  assert (Hother : forall i, i <> 6 ->
            Z.testbit (Z.lor (int flags) O_CREATE) i
            = Z.testbit (int flags) i).
  { intros i Hi. rewrite Z.lor_spec.
    change O_CREATE with (2 ^ 6).
    destruct (Z.neg_nonneg_cases i) as [Hneg|Hpos].
    + now rewrite !Z.testbit_neg_r by assumption.
    + rewrite Z.pow2_bits_eqb by lia.
      replace (6 =? i) with false by (symmetry; apply Z.eqb_neq; lia).
      apply orb_false_r. }
  split; [reflexivity|]. split; [|split; [|split; [|split; [|split]]]].
  - rewrite Z.lor_spec. apply orb_true_r.
  - exact Hother.
  - intros i Hi Hne. rewrite (Hother i Hne). now apply int_testbit.
  - intros Hflags. rewrite int_small by lia. reflexivity.
  - intros f' H. injection H as -> ->. reflexivity.
  - intros f' e H. injection H as -> ->. reflexivity.
Qed.

Lemma Create_opens_with_O_CREATE_witness :
  outcome (run Sim.env (LoopbackFileSystem.Create Sim.env fs0 "new" 1 420)
             0 w0)
  = Returned (Some file3, OK)
  /\ outcome (run Sim.env
                (LoopbackFileSystem.Create Sim.env fs0 "secret" 1 420) 0 w0)
     = Returned (Some {| LoopbackFile.file := None |}, EACCES)
  /\ Z.lor (int 1) O_CREATE = 65.
Proof.
  pose proof (Create_opens_with_O_CREATE Sim.env fs0 "new" 1 420 0 w0)
    as Hnew.
  pose proof (Create_opens_with_O_CREATE Sim.env fs0 "secret" 1 420 0 w0)
    as Hsecret.
  cbv zeta in Hnew, Hsecret.
  destruct Hnew as (_ & _ & _ & _ & Hflag & Hok & _).
  destruct Hsecret as (_ & _ & _ & _ & _ & _ & Hfail).
  split; [apply Hok; reflexivity|]. split.
  - apply (Hfail None (PathError "open" "/mnt/secret" (Errno EACCES))).
    reflexivity.
  - rewrite Hflag by lia. reflexivity.
Defined.

(** C6. The producer and a failing fetch, at whatever point of the
    enumeration.  Let the host answer [k] fetches with batches that make
    the loop go round (full, without error), and the next fetch with an
    error, or with a short batch.  Then the producer, given that many
    iterations or more, returns: it has issued each of these fetches, each
    followed by one send per entry of its batch, then the close of the
    queue, then the close of the directory, and nothing else.  What it put
    on the queue is the entries of these batches, the failing one
    included; the queue carries entries only, so the consumer sees a
    listing that ends, early, and nothing that tells the error.  For every
    run of the producer besides: a fetch answered with an error is the last
    fetch, a run that returns ends by closing the queue and then the
    directory, and no run panics. *)
Theorem OpenDir_producer_stops_on_error (h : Env) (f : option os_File)
    (want : Z) (output : Chan) (k n : nat) (w : World h) :
  let good := batches_from h f want output k w in
  let b := fst (respond h (File_Readdir f want) (snd good)) in
  let all := fst good ++ [b] in
  let closes := [Is (chan_close output); Is (File_Close f)] in
  let r := run h (LoopbackFileSystem.OpenDir_producer f want output)
             (k + S n) w in
  forallb (goes_on want) (fst good) = true ->
  snd b <> None \/ len (fst b) < want ->
  (outcome r = Returned tt
   /\ fetched (trace r) = all
   /\ issued (trace r) = flat_map (batch_calls f want output) all ++ closes
   /\ delivered output (trace r)
      = flat_map (fun b' => map entry_of (fst b')) all)
  /\ forall fuel' w',
      let r' := run h (LoopbackFileSystem.OpenDir_producer f want output)
                  fuel' w' in
      (forall pre infos e post,
          fetched (trace r') = pre ++ (infos, Some e) :: post ->
          post = [] /\ outcome r' = Returned tt)
      /\ (outcome r' = Returned tt ->
          issued (trace r')
          = flat_map (batch_calls f want output) (fetched (trace r'))
            ++ closes)
      /\ (outcome r' = Returned tt \/ outcome r' = OutOfFuel).
Proof.
  cbv zeta. intros Hgood Hstop. split.
  - rewrite run_producer.
    destruct (produce_shape h f want output (k + S n) w)
      as (_ & Hiss & Hdel & _).
    assert (Hrun :
              outcome (produce h f want output (k + S n) w) = Returned tt
              /\ fetched (trace (produce h f want output (k + S n) w))
                 = fst (batches_from h f want output k w)
                   ++ [fst (respond h (File_Readdir f want)
                              (snd (batches_from h f want output k w)))]).
    { rewrite (produce_after_batches h f want output k (S n) w Hgood).
      rewrite produce_step. cbv zeta.
      destruct (respond h (File_Readdir f want)
                  (snd (batches_from h f want output k w)))
        as [[infos err] w1].
      cbn [fst snd] in Hstop |- *.
      assert (Hcond : (len infos <? want) || not_nil err = true).
      { destruct Hstop as [Herr|Hshort].
        - destruct err; [apply orb_true_r|contradiction].
        - apply orb_true_iff. left. now apply Z.ltb_lt. }
      rewrite Hcond. unfold after, closing; cbn [outcome trace world].
      split; [reflexivity|].
      rewrite fetched_batches.
      change (Ev (File_Readdir f want) (infos, err)
              :: map (send_event output) infos)
        with (batch_events f want output (infos, err)).
      now rewrite fetched_batch_events. }
    destruct Hrun as [Hret Hf].
    split; [exact Hret|]. split; [exact Hf|].
    rewrite (Hiss Hret), Hdel, Hf. split; reflexivity.
  - intros fuel' w'. rewrite run_producer.
    destruct (produce_shape h f want output fuel' w')
      as (Hout & Hiss & _ & Herr).
    split; [exact Herr|]. split; assumption.
Qed.

Lemma OpenDir_producer_stops_on_error_witness :
  let f := Some {| fd := 3 |} in
  let r := run Script.env
             (LoopbackFileSystem.OpenDir_producer f 500 0%nat) 2
             faulty_listing in
  let all := [(Dir.numbered 500, None);
              (Dir.numbered 500, Some (Errno EIO))] in
  outcome r = Returned tt
  /\ fetched (trace r) = all
  /\ issued (trace r)
     = flat_map (batch_calls f 500 0%nat) all
       ++ [Is (chan_close 0%nat); Is (File_Close f)]
  /\ delivered 0%nat (trace r)
     = flat_map (fun b' => map entry_of (fst b')) all.
Proof.
  pose proof (OpenDir_producer_stops_on_error Script.env
                (Some {| fd := 3 |}) 500 0%nat 1 0 faulty_listing) as H.
  cbv zeta in H.
  specialize (H ltac:(vm_compute; reflexivity)
                ltac:(left; vm_compute; discriminate)).
  destruct H as [H _].
  vm_compute in H. vm_compute. exact H.
Defined.

(** C7. [Unlink] issues exactly one call to the host, [syscall.Unlink] on
    the resolved path, and returns its errno as the status; it issues
    neither [os.Remove] nor an rmdir. *)
Theorem Unlink_issues_one_unlink (h : Env) (me : LoopbackFileSystem.t)
    (name : string) (fuel : nat) (w : World h) :
  let unlink := syscall_Unlink (LoopbackFileSystem.GetPath h me name) in
  let a := respond h unlink w in
  let r := run h (LoopbackFileSystem.Unlink h me name) fuel w in
  r = {| outcome := Returned (Status_of_int (fst a));
         trace := [Ev unlink (fst a)];
         world := snd a |}
  /\ issued (trace r) = [Is unlink]
  /\ List.length (trace r) = 1%nat
  /\ forallb (fun i => negb (may_remove_directory i)) (issued (trace r))
     = true.
Proof.
  cbv zeta. unfold LoopbackFileSystem.Unlink.
  cbn [bind Monad_Prog pbind call run].
  repeat split.
Qed.

(** C8. The handle-level [Truncate], [Chmod], [Chown] and [GetAttr] call
    the host on the retained file only (its descriptor, for the
    truncation) and issue no call that takes a path; so on a host whose
    handle-level answers are fixed by some part of its world, two worlds
    that agree on that part (before and after a rename or unlink of the
    path, for one) give each of these operations the same result. *)
Theorem handle_operations_use_the_handle (h : Env) (me : LoopbackFile.t)
    (size mode uid gid : Z) (fuel : nat) (w : World h) :
  let f := LoopbackFile.file me in
  let truncate := LoopbackFile.Truncate me size in
  let chmod := LoopbackFile.Chmod me mode in
  let chown := LoopbackFile.Chown me uid gid in
  let getattr := LoopbackFile.GetAttr me in
  (issued (trace (run h truncate fuel w))
   = [Is (File_Fd f);
      Is (syscall_Ftruncate (fst (respond h (File_Fd f) w)) (int64 size))]
   /\ issued (trace (run h chmod fuel w)) = [Is (File_Chmod f mode)]
   /\ issued (trace (run h chown fuel w))
      = [Is (File_Chown f (int uid) (int gid))]
   /\ issued (trace (run h getattr fuel w)) = [Is (File_Stat f)])
  /\ (existsb takes_path (issued (trace (run h truncate fuel w))) = false
      /\ existsb takes_path (issued (trace (run h chmod fuel w))) = false
      /\ existsb takes_path (issued (trace (run h chown fuel w))) = false
      /\ existsb takes_path (issued (trace (run h getattr fuel w))) = false)
  /\ forall (same : World h -> World h -> Prop) (w' : World h),
      handle_determined h f same -> same w w' ->
      outcome (run h truncate fuel w) = outcome (run h truncate fuel w')
      /\ outcome (run h chmod fuel w) = outcome (run h chmod fuel w')
      /\ outcome (run h chown fuel w) = outcome (run h chown fuel w')
      /\ outcome (run h getattr fuel w) = outcome (run h getattr fuel w').
Proof.
  cbv zeta.
  unfold LoopbackFile.Truncate, LoopbackFile.Chmod, LoopbackFile.Chown,
    LoopbackFile.GetAttr.
  cbn [bind Monad_Prog pbind call run].
  split; [|split].
  - repeat split.
    destruct (fst (respond h (File_Stat (LoopbackFile.file me)) w))
      as [[fi|] [e|]]; reflexivity.
  - repeat split.
    destruct (fst (respond h (File_Stat (LoopbackFile.file me)) w))
      as [[fi|] [e|]]; reflexivity.
  - intros same w' Hdet Hsame.
    repeat split.
    + destruct (Hdet _ (File_Fd (LoopbackFile.file me)) w w' eq_refl Hsame)
        as [Hfd Hsame1].
      rewrite <- Hfd.
      destruct (Hdet _ (syscall_Ftruncate
                          (fst (respond h (File_Fd (LoopbackFile.file me)) w))
                          (int64 size)) _ _ I Hsame1) as [Htr _].
      unfold after; cbn [outcome]. now rewrite Htr.
    + destruct (Hdet _ (File_Chmod (LoopbackFile.file me) mode) w w'
                  eq_refl Hsame) as [Hc _].
      unfold after; cbn [outcome]. now rewrite Hc.
    + destruct (Hdet _ (File_Chown (LoopbackFile.file me) (int uid) (int gid))
                  w w' eq_refl Hsame) as [Hc _].
      unfold after; cbn [outcome]. now rewrite Hc.
    + destruct (Hdet _ (File_Stat (LoopbackFile.file me)) w w' eq_refl Hsame)
        as [Hc _].
      unfold after; cbn [outcome]. rewrite Hc.
      destruct (fst (respond h (File_Stat (LoopbackFile.file me)) w'))
        as [[fi|] [e|]]; reflexivity.
Qed.

Lemma Sim_handle_determined (f : option os_File) :
  handle_determined Sim.env f (fun a b => Sim.handles a = Sim.handles b).
Proof.
  intros R c w1 w2 Hl Hs.
  destruct c; try contradiction; cbn in Hl |- *.
  - split; [reflexivity|exact Hs].
  - unfold Sim.on_handle, Sim.handle_of, Sim.update_handle, Sim.with_handles.
    rewrite Hs.
    destruct f0 as [f0|]; [|split; [reflexivity|exact Hs]].
    destruct (Sim.lookup Z.eqb (fd f0) (Sim.handles w2));
      cbn; rewrite ?Hs; split; auto.
  - unfold Sim.on_handle, Sim.handle_of, Sim.update_handle, Sim.with_handles.
    rewrite Hs.
    destruct f0 as [f0|]; [|split; [reflexivity|exact Hs]].
    destruct (Sim.lookup Z.eqb (fd f0) (Sim.handles w2));
      cbn; rewrite ?Hs; split; auto.
  - unfold Sim.handle_of. rewrite Hs.
    destruct f0 as [f0|]; [|split; [reflexivity|exact Hs]].
    destruct (Sim.lookup Z.eqb (fd f0) (Sim.handles w2));
      cbn; split; auto.
  - unfold Sim.update_handle, Sim.with_handles. rewrite Hs.
    destruct (Sim.lookup Z.eqb fd0 (Sim.handles w2));
      cbn; rewrite ?Hs; split; auto.
Qed.

Lemma handle_operations_use_the_handle_witness :
  Sim.nodes w0_gone = []
  /\ outcome (run Sim.env (LoopbackFile.GetAttr file3) 0 w0_gone)
     = Returned (Some (CopyFileInfo fi_a Attr.new), OK)
  /\ outcome (run Sim.env (LoopbackFile.Truncate file3 1) 0 w0_gone)
     = Returned OK.
Proof.
  destruct (proj2 (proj2 (handle_operations_use_the_handle Sim.env file3
                            1 420 0 0 0 w0_open))
              (fun a b => Sim.handles a = Sim.handles b) w0_gone
              (Sim_handle_determined (LoopbackFile.file file3)) eq_refl)
    as (Htruncate & _ & _ & Hgetattr).
  split; [reflexivity|]. split.
  - rewrite <- Hgetattr. reflexivity.
  - rewrite <- Htruncate. reflexivity.
Defined.

(** C9. When the host's open fails inside [Create], with no handle and an
    error, [Create] still returns a File Handle that is not nil and wraps
    the nil host handle, next to the status of the error; [Open], on a
    failing host open, returns the nil File Handle with the status. *)
Theorem Create_failure_returns_handle (h : Env) (me : LoopbackFileSystem.t)
    (path : string) (flags mode : Z) (fuel : nat) (w : World h) (e : Error) :
  fst (respond h
         (os_OpenFile (LoopbackFileSystem.GetPath h me path)
            (Z.lor (int flags) O_CREATE) mode) w)
  = (None, Some e) ->
  (exists fuseFile,
      outcome (run h (LoopbackFileSystem.Create h me path flags mode) fuel w)
      = Returned (Some fuseFile, OsErrorToErrno (Some e))
      /\ LoopbackFile.file fuseFile = None)
  /\ (forall name flags' w' f' e',
        fst (respond h
               (os_OpenFile (LoopbackFileSystem.GetPath h me name)
                  (int flags') 0) w')
        = (f', Some e') ->
        outcome (run h (LoopbackFileSystem.Open h me name flags') fuel w')
        = Returned (None, OsErrorToErrno (Some e'))).
Proof.
  intros H. split.
  - exists {| LoopbackFile.file := None |}.
    unfold LoopbackFileSystem.Create.
    cbn [bind Monad_Prog pbind call run].
    destruct (respond h _ w) as [a w1]. cbn [fst snd] in *. subst a.
    split; reflexivity.
  - intros name flags' w' f' e' H'.
    unfold LoopbackFileSystem.Open.
    cbn [bind Monad_Prog pbind call run].
    destruct (respond h _ w') as [a w1]. cbn [fst snd] in *. subst a.
    reflexivity.
Qed.

Lemma Create_failure_returns_handle_witness :
  (exists fuseFile,
      outcome (run Sim.env
                 (LoopbackFileSystem.Create Sim.env fs0 "secret" 0 420) 0 w0)
      = Returned (Some fuseFile, EACCES)
      /\ LoopbackFile.file fuseFile = None)
  /\ outcome (run Sim.env (LoopbackFileSystem.Open Sim.env fs0 "secret" 0)
                0 w0)
     = Returned (None, EACCES).
Proof.
  destruct (Create_failure_returns_handle Sim.env fs0 "secret" 0 420 0 w0
              (PathError "open" "/mnt/secret" (Errno EACCES)) eq_refl)
    as [Hcreate Hopen].
  split.
  - exact Hcreate.
  - exact (Hopen "secret" 0 w0 None
             (PathError "open" "/mnt/secret" (Errno EACCES)) eq_refl).
Defined.

(** C10. When the host's open of the directory fails, [OpenDir] returns the
    nil stream with the translation of the host's error, after that one
    call: no queue is made and no producer is started. *)
Theorem OpenDir_open_failure (h : Env) (me : LoopbackFileSystem.t)
    (name : string) (fuel : nat) (w w1 : World h) (f : option os_File)
    (e : Error) :
  respond h (os_Open (LoopbackFileSystem.GetPath h me name)) w
  = ((f, Some e), w1) ->
  let r := run h (LoopbackFileSystem.OpenDir h me name) fuel w in
  r = {| outcome := Returned (None, OsErrorToErrno (Some e));
         trace := [Ev (os_Open (LoopbackFileSystem.GetPath h me name))
                     (f, Some e)];
         world := w1 |}
  /\ started (trace r) = []
  /\ existsb sets_up_listing (issued (trace r)) = false.
Proof.
  intros H. cbv zeta. unfold LoopbackFileSystem.OpenDir.
  cbn [bind Monad_Prog pbind call run].
  rewrite H. cbn. repeat split.
Qed.

Lemma OpenDir_open_failure_witness :
  run Sim.env (LoopbackFileSystem.OpenDir Sim.env fs0 "secret") 0 w0
  = {| outcome := Returned (None, EACCES);
       trace := [Ev (os_Open "/mnt/secret")
                   (None, Some (PathError "open" "/mnt/secret" (Errno EACCES)))];
       world := w0 |}.
Proof.
  apply (OpenDir_open_failure Sim.env fs0 "secret" 0 w0 w0 None
           (PathError "open" "/mnt/secret" (Errno EACCES)) eq_refl).
Defined.

(** * Further properties *)

(** X1. [Open]: one host open on the resolved path, with permission 0 and
    the caller's flags, whose 32 bits the conversion to [int] keeps (so the
    create-if-missing bit is set only if the caller set it); the host's
    handle comes back wrapped with [OK] when the host reported no error,
    and the nil File Handle with the translated error otherwise. *)
Theorem Open_passes_the_flags (h : Env) (me : LoopbackFileSystem.t)
    (name : string) (flags : Z) (fuel : nat) (w : World h) :
  let open :=
    os_OpenFile (LoopbackFileSystem.GetPath h me name) (int flags) 0 in
  let a := respond h open w in
  let r := run h (LoopbackFileSystem.Open h me name flags) fuel w in
  trace r = [Ev open (fst a)]
  /\ (forall i, 0 <= i < 32 -> Z.testbit (int flags) i = Z.testbit flags i)
  /\ (0 <= flags < 2 ^ 31 -> int flags = flags)
  /\ (forall f, fst a = (f, None) ->
      outcome r = Returned (Some {| LoopbackFile.file := f |}, OK))
  /\ (forall f e, fst a = (f, Some e) ->
      outcome r = Returned (None, OsErrorToErrno (Some e))).
Proof.
  cbv zeta. unfold LoopbackFileSystem.Open.
  cbn [bind Monad_Prog pbind call run].
  destruct (respond h _ w) as [[f err] w1]. cbn [fst snd].
  split; [destruct err; reflexivity|].
  split; [intros i Hi; now apply int_testbit|].
  split; [intros H; apply int_small; lia|].
  split.
  - intros f' H. injection H as -> ->. reflexivity.
  - intros f' e H. injection H as -> ->. reflexivity.
Qed.

Lemma Open_passes_the_flags_witness :
  outcome (run Sim.env (LoopbackFileSystem.Open Sim.env fs0 "a" 2) 0 w0)
  = Returned (Some file3, OK)
  /\ outcome (run Sim.env (LoopbackFileSystem.Open Sim.env fs0 "b" 2) 0 w0)
     = Returned (None, ENOENT)
  /\ int 2 = 2.
Proof.
  pose proof (Open_passes_the_flags Sim.env fs0 "a" 2 0 w0) as Ha.
  pose proof (Open_passes_the_flags Sim.env fs0 "b" 2 0 w0) as Hb.
  cbv zeta in Ha, Hb.
  destruct Ha as (_ & _ & Hint & Hok & _).
  destruct Hb as (_ & _ & _ & _ & Hfail).
  split; [apply Hok; reflexivity|].
  split; [|apply Hint; lia].
  apply (Hfail None (PathError "open" "/mnt/b" (Errno ENOENT))). reflexivity.
Defined.

(** X2. [Create] and the caller's flags: bit [i] of the flag handed to the
    host is bit [i] of the caller's flags, for each of the 32 bits but the
    create-if-missing bit, which is set; when the caller's flags already
    have that bit, the flag is the one [Open] would hand over. *)
Theorem Create_keeps_the_other_flags (h : Env) (me : LoopbackFileSystem.t)
    (path : string) (flags mode : Z) (fuel : nat) (w : World h) :
  let flag := Z.lor (int flags) O_CREATE in
  issued (trace (run h (LoopbackFileSystem.Create h me path flags mode)
                   fuel w))
  = [Is (os_OpenFile (LoopbackFileSystem.GetPath h me path) flag mode)]
  /\ (forall i, 0 <= i < 32 ->
      Z.testbit flag i = Z.testbit flags i || (i =? 6))
  /\ (Z.testbit flags 6 = true -> flag = int flags).
Proof.
  cbv zeta. split; [|split].
  - unfold LoopbackFileSystem.Create.
    cbn [bind Monad_Prog pbind call run].
    now destruct (respond h _ w) as [[f err] w1].
  - intros i Hi. rewrite Z.lor_spec, int_testbit by assumption.
    change O_CREATE with (2 ^ 6). rewrite Z.pow2_bits_eqb by lia.
    now rewrite (Z.eqb_sym 6 i).
  - intros H. apply Z.bits_inj'. intros i Hi.
    rewrite Z.lor_spec. change O_CREATE with (2 ^ 6).
    rewrite Z.pow2_bits_eqb by lia.
    destruct (Z.eqb_spec 6 i) as [<-|Hne]; [|apply orb_false_r].
    rewrite int_testbit by lia. now rewrite H.
Qed.

Lemma Create_keeps_the_other_flags_witness :
  Z.lor (int 66) O_CREATE = int 66.
Proof.
  apply (proj2 (proj2 (Create_keeps_the_other_flags Sim.env fs0 "a" 66 420
                         0 w0))).
  reflexivity.
Defined.

(** X3. Lengths and offsets of 64 bits: [Truncate], by path and by handle,
    hands the host the caller's unsigned length converted to [int64]: the
    length itself below 2^63, and the negative number [length - 2^64] from
    2^63 on. *)
Theorem Truncate_converts_the_length (h : Env) (me : LoopbackFileSystem.t)
    (fh : LoopbackFile.t) (path : string) (size : Z) (fuel : nat)
    (w : World h) :
  0 <= size < 2 ^ 64 ->
  let by_path := run h (LoopbackFileSystem.Truncate h me path size) fuel w in
  let by_handle := run h (LoopbackFile.Truncate fh size) fuel w in
  let fd := fst (respond h (File_Fd (LoopbackFile.file fh)) w) in
  let given := if size <? 2 ^ 63 then size else size - 2 ^ 64 in
  issued (trace by_path)
  = [Is (os_Truncate (LoopbackFileSystem.GetPath h me path) given)]
  /\ issued (trace by_handle)
     = [Is (File_Fd (LoopbackFile.file fh)); Is (syscall_Ftruncate fd given)]
  /\ (2 ^ 63 <= size -> given < 0).
Proof.
  intros Hsize. cbv zeta.
  assert (Hconv : int64 size
                  = if size <? 2 ^ 63 then size else size - 2 ^ 64).
  { destruct (Z.ltb_spec size (2 ^ 63)).
    - apply int64_small; lia.
    - apply int64_large; lia. }
  rewrite <- Hconv.
  split; [reflexivity|]. split; [reflexivity|].
  intros Hbig. rewrite int64_large; lia.
Qed.

Lemma Truncate_converts_the_length_witness :
  issued (trace (run Sim.env
                   (LoopbackFileSystem.Truncate Sim.env fs0 "a" (2 ^ 63))
                   0 w0))
  = [Is (os_Truncate "/mnt/a" (- 2 ^ 63))].
Proof.
  apply (proj1 (Truncate_converts_the_length Sim.env fs0 file3 "a" (2 ^ 63)
                  0 w0 ltac:(split; [discriminate|reflexivity]))).
Defined.

(** X4. [Write]: one host write of the given data at the given offset,
    never a second one, however few bytes the host reports written; the
    count returned is the host's count (within the range of [uint32]) and
    the status is the translation of the host's error, so a short write
    comes back as it is. *)
Theorem Write_reports_the_count (h : Env) (me : LoopbackFile.t)
    (input : WriteIn.t) (data : list Byte.byte) (fuel : nat) (w : World h) :
  let write :=
    File_WriteAt (LoopbackFile.file me) data (int64 (WriteIn.Offset input)) in
  let a := respond h write w in
  let n := fst (fst a) in
  let err := snd (fst a) in
  let r := run h (LoopbackFile.Write me input data) fuel w in
  0 <= n < 2 ^ 32 ->
  trace r = [Ev write (fst a)]
  /\ outcome r = Returned (n, OsErrorToErrno err).
Proof.
  cbv zeta. unfold LoopbackFile.Write.
  cbn [bind Monad_Prog pbind call run].
  destruct (respond h _ w) as [[n err] w1]. cbn [fst snd].
  intros Hn. split; [reflexivity|].
  unfold after; cbn. unfold uint32, wrap_unsigned.
  now rewrite Z.mod_small.
Qed.

Lemma Write_reports_the_count_witness :
  outcome (run Sim.env
             (LoopbackFile.Write file3 (WriteIn.Make 0) [Byte.x61; Byte.x62])
             0 w0_open)
  = Returned (2, OK).
Proof.
  apply (proj2 (Write_reports_the_count Sim.env file3 (WriteIn.Make 0)
                  [Byte.x61; Byte.x62] 0 w0_open
                  ltac:(split; [discriminate|reflexivity]))).
Defined.

(** ** Paths *)

(** X5. The paths an operation hands to the host are the caller's paths,
    each made into a path under the root by [GetPath], in the order of the
    arguments, and no other path; with one exception: [Symlink] passes the
    link's target as the caller gave it, and roots the link's name only. *)
Theorem paths_are_rooted (h : Env) (me : LoopbackFileSystem.t)
    (req : Request) (name : string) (fuel : nat) (w : World h) :
  let called :=
    flat_map paths_of
      (issued (trace (run h (status_of h me req) fuel w))) in
  called
  = match req with
    | Req_Symlink pointedTo linkName =>
        [pointedTo; LoopbackFileSystem.GetPath h me linkName]
    | _ => map (LoopbackFileSystem.GetPath h me) (caller_paths req)
    end
  /\ flat_map paths_of
       (issued (trace (run h (LoopbackFileSystem.GetAttr h me name) fuel w)))
     = [LoopbackFileSystem.GetPath h me name].
Proof.
  cbv zeta. split.
  - destruct req; unfold status_of, status;
      unfold LoopbackFileSystem.OpenDir, LoopbackFileSystem.Open,
        LoopbackFileSystem.Chmod, LoopbackFileSystem.Chown,
        LoopbackFileSystem.Truncate, LoopbackFileSystem.Utimens,
        LoopbackFileSystem.Readlink, LoopbackFileSystem.Mknod,
        LoopbackFileSystem.Mkdir, LoopbackFileSystem.Unlink,
        LoopbackFileSystem.Rmdir, LoopbackFileSystem.Symlink,
        LoopbackFileSystem.Rename, LoopbackFileSystem.Link,
        LoopbackFileSystem.Access, LoopbackFileSystem.Create,
        LoopbackFileSystem.GetXAttr, LoopbackFileSystem.ListXAttr,
        LoopbackFileSystem.RemoveXAttr, LoopbackFile.Read,
        LoopbackFile.Write, LoopbackFile.Fsync, LoopbackFile.Truncate,
        LoopbackFile.Chmod, LoopbackFile.Chown, LoopbackFile.GetAttr;
      cbn [bind Monad_Prog pbind call run];
      repeat answer_of h; repeat split_answer;
      cbn [bind Monad_Prog pbind call run not_nil];
      repeat answer_of h; repeat split_answer.
    all: repeat match goal with
           | |- context [not_nil ?x] => destruct x; cbn [not_nil]
           | |- context [is_EOF ?x] => destruct (is_EOF x)
           | |- context [slice_to ?l ?z] =>
               unfold slice_to; destruct ((0 <=? z) && (z <=? len l))
           | |- context [deref ?o] => destruct o; cbn [deref]
           end.
    all: cbn [bind Monad_Prog pbind call run]; repeat answer_of h.
    all: unfold after; cbn; reflexivity.
  - unfold LoopbackFileSystem.GetAttr.
    cbn [bind Monad_Prog pbind call run].
    destruct (respond h _ w) as [[[fi|] [e|]] w1]; cbn; reflexivity.
Qed.

(** ** The producer, whatever the host answers *)

Lemma no_end_in_sends output infos :
  existsb ends_listing (issued (map (send_event output) infos)) = false.
Proof. induction infos; simpl; auto. Qed.

Lemma delivered_elsewhere output c infos :
  c <> output -> delivered c (map (send_event output) infos) = [].
Proof.
  intros Hc. induction infos as [|info infos IH]; simpl; [reflexivity|].
  apply Nat.eqb_neq in Hc. rewrite Nat.eqb_sym in Hc.
  now rewrite Hc, IH.
Qed.

Lemma entries_of_batches (bs : list (list FileInfo.t * option Error)) :
  flat_map (fun b => map entry_of (fst b)) bs
  = map entry_of (List.concat (map fst bs)).
Proof.
  induction bs as [|b bs IH]; simpl; [reflexivity|].
  now rewrite IH, map_app.
Qed.

Section ProduceMore.
Variable h : Env.
Variable f : option os_File.
Variable want : Z.
Variable output : Chan.

Lemma fetched_batch (b : list FileInfo.t * option Error) t :
  fetched ((Ev (File_Readdir f want) b :: map (send_event output) (fst b))
           ++ t)
  = b :: fetched t.
Proof.
  rewrite fetched_app.
  change (fetched (?e :: ?t0)) with (fetched_by e ++ fetched t0).
  now rewrite fetched_sends.
Qed.

Lemma produce_stops n w :
  let r := produce h f want output n w in
  (outcome r = Returned tt ->
   exists pre last,
     fetched (trace r) = pre ++ [last]
     /\ forallb (goes_on want) pre = true
     /\ goes_on want last = false)
  /\ (outcome r = OutOfFuel ->
      forallb (goes_on want) (fetched (trace r)) = true
      /\ List.length (fetched (trace r)) = n
      /\ existsb ends_listing (issued (trace r)) = false)
  /\ ((forall w', goes_on want (fst (respond h (File_Readdir f want) w'))
                  = true) ->
      outcome r = OutOfFuel).
Proof.
  revert w; induction n as [|n IH]; intros w.
  - cbn. split; [discriminate|]. split; auto.
  - cbv zeta. rewrite produce_step.
    assert (Hhere :
              (forall w', goes_on want (fst (respond h (File_Readdir f want) w'))
                          = true) ->
              goes_on want (fst (respond h (File_Readdir f want) w)) = true)
      by (intros H; apply H).
    destruct (respond h (File_Readdir f want) w) as [[infos err] w1].
    cbn [fst snd] in *. cbv zeta. rewrite goes_on_stop.
    destruct (goes_on want (infos, err)) eqn:Hgo; cbn [negb].
    + destruct (IH (sending h output infos w1)) as (Hret & Hout & Hall).
      unfold after; cbn [outcome trace world].
      rewrite (fetched_batch (infos, err)), issued_app.
      split; [|split].
      * intros Hr. destruct (Hret Hr) as (pre & last & Hf & Hpre & Hlast).
        exists ((infos, err) :: pre), last. rewrite Hf.
        cbn. now rewrite Hgo, Hpre.
      * intros Hr. destruct (Hout Hr) as (Hfor & Hlen & Hend).
        cbn [forallb List.length]. rewrite Hgo, Hfor, Hlen.
        split; [reflexivity|]. split; [reflexivity|].
        rewrite existsb_app, Hend.
        cbn [issued map existsb ends_listing].
        fold (issued (map (send_event output) infos)).
        now rewrite no_end_in_sends.
      * intros H. apply Hall, H.
    + unfold closing, after; cbn [outcome trace world].
      rewrite (fetched_batch (infos, err)).
      split; [|split].
      * intros _. exists [], (infos, err). cbn. now rewrite Hgo.
      * discriminate.
      * intros H. specialize (Hhere H). congruence.
Qed.

Lemma produce_elsewhere c n w :
  c <> output -> delivered c (trace (produce h f want output n w)) = [].
Proof.
  intros Hc. revert w; induction n as [|n IH]; intros w.
  - reflexivity.
  - rewrite produce_step. cbv zeta. unfold after; cbn [trace].
    rewrite delivered_app.
    change (delivered c (?e :: ?t)) with (sent_by c e ++ delivered c t).
    rewrite delivered_elsewhere by exact Hc. cbn [sent_by app].
    destruct (_ || _); [reflexivity|apply IH].
Qed.
End ProduceMore.

(** X6. When the producer stops.  A run of the producer that returns has
    fetched batches that all made the loop go round again (full, and
    without error) except the last, which was short or came with an error;
    a run that is still going has fetched one batch per iteration, all of
    them full and without error, and has closed neither the queue nor the
    directory.  So on a host that answers every fetch with a full batch and
    no error the producer never returns, whatever the number of iterations
    it is given. *)
Theorem OpenDir_producer_stops_only_then (h : Env) (f : option os_File)
    (want : Z) (output : Chan) (fuel : nat) (w : World h) :
  let r := run h (LoopbackFileSystem.OpenDir_producer f want output) fuel w in
  (outcome r = Returned tt ->
   exists pre last,
     fetched (trace r) = pre ++ [last]
     /\ forallb (goes_on want) pre = true
     /\ goes_on want last = false)
  /\ (outcome r = OutOfFuel ->
      forallb (goes_on want) (fetched (trace r)) = true
      /\ List.length (fetched (trace r)) = fuel
      /\ existsb ends_listing (issued (trace r)) = false)
  /\ ((forall w', goes_on want (fst (respond h (File_Readdir f want) w'))
                  = true) ->
      outcome r = OutOfFuel).
Proof.
  cbv zeta. rewrite run_producer. apply produce_stops.
Qed.

Lemma OpenDir_producer_stops_only_then_witness :
  let r := run Endless.env
             (LoopbackFileSystem.OpenDir_producer None 500 0%nat) 4 0%nat in
  outcome r = OutOfFuel
  /\ List.length (fetched (trace r)) = 4%nat
  /\ existsb ends_listing (issued (trace r)) = false.
Proof.
  cbv zeta.
  destruct (OpenDir_producer_stops_only_then Endless.env None 500 0%nat 4
              0%nat) as (_ & Hgoing & Hnever).
  cbv zeta in Hgoing, Hnever.
  assert (Hout : outcome (run Endless.env
                            (LoopbackFileSystem.OpenDir_producer None 500 0%nat)
                            4 0%nat) = OutOfFuel)
    by (apply Hnever; intros w'; reflexivity).
  split; [exact Hout|]. apply (Hgoing Hout).
Defined.

(** X7. What the producer puts on the queue, whatever the host answers and
    however far the run got: the entries of the batches it fetched, batch
    after batch and in the order of each batch, nothing else; and it sends
    on no other channel. *)
Theorem OpenDir_producer_sends_what_it_fetched (h : Env)
    (f : option os_File) (want : Z) (output : Chan) (fuel : nat)
    (w : World h) :
  let r := run h (LoopbackFileSystem.OpenDir_producer f want output) fuel w in
  delivered output (trace r)
  = map entry_of (List.concat (map fst (fetched (trace r))))
  /\ forall c, c <> output -> delivered c (trace r) = [].
Proof.
  cbv zeta. rewrite run_producer. split.
  - destruct (produce_shape h f want output fuel w) as (_ & _ & Hdel & _).
    rewrite Hdel. apply entries_of_batches.
  - intros c Hc. now apply produce_elsewhere.
Qed.

Lemma OpenDir_producer_sends_what_it_fetched_witness :
  delivered 1%nat
    (trace (run Script.env
              (LoopbackFileSystem.OpenDir_producer None 500 0%nat) 9
              faulty_listing))
  = [].
Proof.
  apply (proj2 (OpenDir_producer_sends_what_it_fetched Script.env None 500
                  0%nat 9 faulty_listing) 1%nat).
  discriminate.
Defined.

(** X8. Two edges of a listing, on a host that serves the directory in
    batches: a directory of fewer than 500 entries (an empty one too) is
    listed with a single fetch, which brings all of it; a directory whose
    entry count is a multiple of 500 costs one fetch more than it has full
    batches, and that last fetch brings nothing. *)
Theorem OpenDir_producer_short_and_exact (h : Env) (f : option os_File)
    (output : Chan) (pending : World h -> list FileInfo.t) (fuel : nat)
    (w : World h) :
  serves_directory h f output pending ->
  (List.length (pending w) / 500 < fuel)%nat ->
  let r := run h (LoopbackFileSystem.OpenDir_producer f 500 output) fuel w in
  ((List.length (pending w) < 500)%nat ->
   fetched (trace r) = [(pending w, None)])
  /\ ((List.length (pending w) mod 500 = 0)%nat ->
      exists full,
        fetched (trace r) = map (fun b => (b, None)) (full ++ [[]])
        /\ Forall (fun b => List.length b = 500%nat) full
        /\ List.length full = (List.length (pending w) / 500)%nat
        /\ List.concat full = pending w).
Proof.
  intros Hserves Hfuel. cbv zeta. rewrite run_producer.
  assert (Hlen : (List.length (pending w) < 500 * fuel)%nat).
  { pose proof (Nat.div_mod_eq (List.length (pending w)) 500) as Hdiv.
    pose proof (Nat.mod_upper_bound (List.length (pending w)) 500) as Hmod.
    lia. }
  destruct (produce_directory Hserves fuel w Hlen)
    as (_ & full & last & Hf & Hfull & Hlast & Hcat).
  assert (Hsize : List.length (pending w)
                  = (500 * List.length full + List.length last)%nat).
  { rewrite <- Hcat, concat_app, length_app.
    rewrite (length_concat_full Hfull).
    cbn [List.concat]. rewrite app_nil_r. reflexivity. }
  split.
  - intros Hshort. destruct full as [|b full].
    + cbn in Hcat. rewrite app_nil_r in Hcat. subst last.
      rewrite Hf. reflexivity.
    + cbn [List.length] in Hsize. lia.
  - intros Hmult.
    assert (Hq : (List.length (pending w) / 500)%nat = List.length full).
    { symmetry. apply Nat.div_unique with (r := List.length last);
        [exact Hlast|exact Hsize]. }
    assert (Hzero : List.length last = 0%nat).
    { pose proof (Nat.div_mod_eq (List.length (pending w)) 500) as Hdiv.
      rewrite Hq, Hmult in Hdiv. lia. }
    destruct last; [|discriminate Hzero].
    exists full. rewrite Hf. repeat split; auto.
    rewrite concat_app in Hcat. cbn in Hcat.
    now rewrite app_nil_r in Hcat.
Qed.

Lemma OpenDir_producer_short_and_exact_witness :
  (exists full,
      fetched (trace (run Dir.env
                        (LoopbackFileSystem.OpenDir_producer None 500 0%nat)
                        3 thousand))
      = map (fun b => (b, None)) (full ++ [[]])
      /\ Forall (fun b => List.length b = 500%nat) full
      /\ List.length full = 2%nat
      /\ List.concat full = thousand)
  /\ fetched (trace (run Dir.env
                       (LoopbackFileSystem.OpenDir_producer None 500 0%nat)
                       1 []))
     = [([], None)].
Proof.
  assert (Hserves : serves_directory Dir.env None 0%nat (fun w => w))
    by (split; [intros w; split; reflexivity|intros e w; reflexivity]).
  split.
  - apply (proj2 (OpenDir_producer_short_and_exact Dir.env None 0%nat
                    (fun w => w) 3 thousand Hserves
                    ltac:(vm_compute; lia))).
    reflexivity.
  - apply (proj1 (OpenDir_producer_short_and_exact Dir.env None 0%nat
                    (fun w => w) 1 [] Hserves ltac:(vm_compute; lia))).
    vm_compute; lia.
Defined.

(** ** File handles *)

(** X9. The handle of a failed [Create] in use: when the host's open fails
    with no handle, the File Handle [Create] returns makes [Release] close
    the nil host file and makes [Read] read from it; the host is called on
    nil, not spared the call. *)
Theorem failed_Create_handle_calls_on_nil (h : Env)
    (me : LoopbackFileSystem.t) (path : string) (flags mode : Z)
    (fuel : nat) (w : World h) (e : Error) :
  fst (respond h
         (os_OpenFile (LoopbackFileSystem.GetPath h me path)
            (Z.lor (int flags) O_CREATE) mode) w)
  = (None, Some e) ->
  exists fh,
    outcome (run h (LoopbackFileSystem.Create h me path flags mode) fuel w)
    = Returned (Some fh, OsErrorToErrno (Some e))
    /\ forall input buffers fuel' w',
        issued (trace (run h (LoopbackFile.Release fh) fuel' w'))
        = [Is (File_Close None)]
        /\ issued (trace (run h (LoopbackFile.Read fh input buffers) fuel' w'))
           = [Is (AllocBuffer buffers (ReadIn.Size input));
              Is (File_ReadAt None
                    (fst (respond h (AllocBuffer buffers (ReadIn.Size input))
                            w'))
                    (int64 (ReadIn.Offset input)))].
Proof.
  intros H. exists {| LoopbackFile.file := None |}. split.
  - unfold LoopbackFileSystem.Create.
    cbn [bind Monad_Prog pbind call run].
    destruct (respond h _ w) as [a w1]. cbn [fst snd] in *. now subst a.
  - intros input buffers fuel' w'. split; [reflexivity|].
    unfold LoopbackFile.Read.
    cbn [bind Monad_Prog pbind call run LoopbackFile.file].
    destruct (respond h (AllocBuffer buffers (ReadIn.Size input)) w')
      as [slice w1]. cbn [fst snd].
    destruct (respond h _ w1) as [[[filled n] err] w2]. cbn [fst snd].
    destruct (is_EOF err); unfold slice_to;
      destruct ((0 <=? n) && (n <=? len (overwrite slice filled)));
      reflexivity.
Qed.

Lemma failed_Create_handle_calls_on_nil_witness :
  exists fh,
    outcome (run Sim.env
               (LoopbackFileSystem.Create Sim.env fs0 "secret" 0 420) 0 w0)
    = Returned (Some fh, EACCES)
    /\ issued (trace (run Sim.env (LoopbackFile.Release fh) 0 w0))
       = [Is (File_Close None)].
Proof.
  destruct (failed_Create_handle_calls_on_nil Sim.env fs0 "secret" 0 420 0
              w0 (PathError "open" "/mnt/secret" (Errno EACCES)) eq_refl)
    as (fh & Hcreate & Huse).
  exists fh. split; [exact Hcreate|].
  apply (Huse (ReadIn.Make 0 0) 0%nat 0%nat w0).
Defined.

(** X10. The other methods of a File Handle: [Read], [Write], [Fsync] and
    [Release] call the host on the retained file or its descriptor only,
    never with a path: [Read] asks the pool for a buffer and reads into it
    from the retained file, [Write] writes to the retained file, [Fsync]
    syncs the descriptor the retained file gives; and [Release] closes the
    retained file once and returns normally whatever the close answers: a
    failing close is not reported. *)
Theorem handle_io_uses_the_handle (h : Env) (me : LoopbackFile.t)
    (rd : ReadIn.t) (buffers : BufferPool) (wr : WriteIn.t)
    (data : list Byte.byte) (fuel : nat) (w : World h) :
  let f := LoopbackFile.file me in
  let release := run h (LoopbackFile.Release me) fuel w in
  let read := run h (LoopbackFile.Read me rd buffers) fuel w in
  let write := run h (LoopbackFile.Write me wr data) fuel w in
  existsb takes_path (issued (trace read)) = false
  /\ existsb takes_path (issued (trace write)) = false
  /\ issued (trace (run h (LoopbackFile.Fsync me) fuel w))
     = [Is (File_Fd f); Is (syscall_Fsync (fst (respond h (File_Fd f) w)))]
  /\ release
     = {| outcome := Returned tt;
          trace := [Ev (File_Close f) (fst (respond h (File_Close f) w))];
          world := snd (respond h (File_Close f) w) |}
  /\ issued (trace read)
     = [Is (AllocBuffer buffers (ReadIn.Size rd));
        Is (File_ReadAt f
              (fst (respond h (AllocBuffer buffers (ReadIn.Size rd)) w))
              (int64 (ReadIn.Offset rd)))]
  /\ issued (trace write)
     = [Is (File_WriteAt f data (int64 (WriteIn.Offset wr)))].
Proof.
  cbv zeta.
  assert (Hread :
            issued (trace (run h (LoopbackFile.Read me rd buffers) fuel w))
            = [Is (AllocBuffer buffers (ReadIn.Size rd));
               Is (File_ReadAt (LoopbackFile.file me)
                     (fst (respond h (AllocBuffer buffers (ReadIn.Size rd))
                             w))
                     (int64 (ReadIn.Offset rd)))]).
  { unfold LoopbackFile.Read.
    cbn [bind Monad_Prog pbind call run].
    destruct (respond h (AllocBuffer buffers (ReadIn.Size rd)) w)
      as [slice w1]. cbn [fst snd].
    destruct (respond h _ w1) as [[[filled n] err] w2]. cbn [fst snd].
    destruct (is_EOF err); unfold slice_to;
      destruct ((0 <=? n) && (n <=? len (overwrite slice filled)));
      reflexivity. }
  assert (Hwrite :
            issued (trace (run h (LoopbackFile.Write me wr data) fuel w))
            = [Is (File_WriteAt (LoopbackFile.file me) data
                     (int64 (WriteIn.Offset wr)))]).
  { unfold LoopbackFile.Write.
    cbn [bind Monad_Prog pbind call run].
    now destruct (respond h (File_WriteAt _ _ _) w) as [[n err] w1]. }
  rewrite Hread, Hwrite. repeat split.
Qed.

(** X11. Query-attributes by path and by handle, given the same answer by
    the host (to lstat of the path, to stat of the file): the two return
    the same result exactly when the host reported no error or an error
    that translates to [ENOENT]; on any other error the one by handle
    returns the translated error and the one by path returns [ENOENT]. *)
Theorem GetAttr_by_path_and_by_handle (h : Env) (me : LoopbackFileSystem.t)
    (fh : LoopbackFile.t) (name : string) (fuel : nat) (w1 w2 : World h) :
  fst (respond h (os_Lstat (LoopbackFileSystem.GetPath h me name)) w1)
  = fst (respond h (File_Stat (LoopbackFile.file fh)) w2) ->
  let err := snd (fst (respond h (File_Stat (LoopbackFile.file fh)) w2)) in
  let by_path := run h (LoopbackFileSystem.GetAttr h me name) fuel w1 in
  let by_handle := run h (LoopbackFile.GetAttr fh) fuel w2 in
  (outcome by_path = outcome by_handle
   <-> err = None \/ OsErrorToErrno err = ENOENT)
  /\ (err <> None ->
      outcome by_path = Returned (None, ENOENT)
      /\ outcome by_handle = Returned (None, OsErrorToErrno err)).
Proof.
  intros H. cbv zeta.
  unfold LoopbackFileSystem.GetAttr, LoopbackFile.GetAttr.
  cbn [bind Monad_Prog pbind call run].
  destruct (respond h (os_Lstat _) w1) as [a wa].
  destruct (respond h (File_Stat _) w2) as [b wb].
  cbn [fst snd] in *. subst a. destruct b as [[fi|] [e|]]; cbn.
  all: split; [split|].
  all: try (intros _; left; reflexivity).
  all: try (intros _; reflexivity).
  all: try (intros Hno; now contradiction Hno).
  all: try (intros _; split; reflexivity).
  - intros Heq. right. now injection Heq as <-.
  - intros [Hnone|Htr]; [discriminate|].
    unfold OsErrorToErrno in Htr. now rewrite Htr.
  - intros Heq. right. now injection Heq as <-.
  - intros [Hnone|Htr]; [discriminate|].
    unfold OsErrorToErrno in Htr. now rewrite Htr.
Qed.

Lemma GetAttr_by_path_and_by_handle_witness :
  outcome (run Sim.env (LoopbackFileSystem.GetAttr Sim.env fs0 "a") 0 w0_open)
  = outcome (run Sim.env (LoopbackFile.GetAttr file3) 0 w0_open).
Proof.
  apply (proj1 (GetAttr_by_path_and_by_handle Sim.env fs0 file3 "a" 0
                  w0_open w0_open eq_refl)).
  left. reflexivity.
Defined.

(** X12. [Read] returns as many bytes as the host reported read: when the
    host reports [n] bytes, with [n] within the buffer, the data returned
    has length [n]; so it is never longer than the buffer the pool gave. *)
Theorem Read_returns_n_bytes (h : Env) (me : LoopbackFile.t)
    (input : ReadIn.t) (buffers : BufferPool) (fuel : nat) (w : World h) :
  let a := respond h (AllocBuffer buffers (ReadIn.Size input)) w in
  let b := respond h
             (File_ReadAt (LoopbackFile.file me) (fst a)
                (int64 (ReadIn.Offset input))) (snd a) in
  let n := snd (fst (fst b)) in
  0 <= n <= len (fst a) ->
  exists out code,
    outcome (run h (LoopbackFile.Read me input buffers) fuel w)
    = Returned (out, code)
    /\ len out = n
    /\ len out <= len (fst a).
Proof.
  cbv zeta. unfold LoopbackFile.Read.
  cbn [bind Monad_Prog pbind call run].
  destruct (respond h (AllocBuffer buffers (ReadIn.Size input)) w)
    as [slice0 w1].
  cbn [fst snd].
  destruct (respond h _ w1) as [[[filled n] err] w2].
  cbn [fst snd]. intros Hn.
  assert (Hin : (0 <=? n) && (n <=? len (overwrite slice0 filled)) = true).
  { rewrite len_overwrite. apply andb_true_iff. split; apply Z.leb_le; lia. }
  assert (Hlen : len (firstn (Z.to_nat n) (overwrite slice0 filled)) = n).
  { pose proof (len_overwrite slice0 filled) as Ho. unfold len in *.
    rewrite length_firstn. lia. }
  destruct (is_EOF err); unfold slice_to; rewrite Hin; cbn;
    eexists; eexists; (split; [reflexivity|]); split; (exact Hlen || lia).
Qed.

Lemma Read_returns_n_bytes_witness :
  exists out code,
    outcome (run Sim.env (LoopbackFile.Read file3 (ReadIn.Make 1 10) 0%nat)
               0 w0_open)
    = Returned (out, code)
    /\ len out = 2
    /\ len out <= 10.
Proof.
  apply (Read_returns_n_bytes Sim.env file3 (ReadIn.Make 1 10) 0%nat 0
           w0_open).
  vm_compute. split; discriminate.
Defined.

(** X13. Listing what cannot be listed: when the host opens the path but
    its first fetch fails and brings nothing (the path is not a directory,
    say), [OpenDir] has returned the queue with [OK], and the producer
    sends nothing, closes the queue and the file after that one fetch: the
    caller sees an empty listing and no error. *)
Theorem OpenDir_of_unlistable_path (h : Env) (me : LoopbackFileSystem.t)
    (name : string) (fuel : nat) (w w1 w2 : World h) (f : option os_File)
    (output : Chan) (e : Error) :
  respond h (os_Open (LoopbackFileSystem.GetPath h me name)) w
  = ((f, None), w1) ->
  respond h (make_chan 500) w1 = (output, w2) ->
  let g := OpenDir_func1 f 500 output in
  let w3 := snd (respond h (go g) w2) in
  fst (respond h (File_Readdir f 500) w3) = ([], Some e) ->
  let r := run h (LoopbackFileSystem.OpenDir h me name) fuel w in
  let p := run h (goroutine g) (S fuel) w3 in
  outcome r = Returned (Some output, OK)
  /\ started (trace r) = [g]
  /\ outcome p = Returned tt
  /\ delivered output (trace p) = []
  /\ issued (trace p)
     = [Is (File_Readdir f 500); Is (chan_close output); Is (File_Close f)].
Proof.
  intros Hopen Hmake g w3 Hfetch r p.
  assert (Hr : outcome r = Returned (Some output, OK)
               /\ started (trace r) = [g]).
  { unfold r, LoopbackFileSystem.OpenDir.
    cbn [bind Monad_Prog pbind call run].
    rewrite Hopen. cbn [fst snd not_nil pbind run].
    rewrite Hmake. cbn [fst snd]. fold g.
    unfold after; cbn. split; reflexivity. }
  destruct Hr as [Hout Hstarted].
  split; [exact Hout|]. split; [exact Hstarted|].
  unfold p; cbn [goroutine g]. rewrite run_producer, produce_step.
  cbv zeta. destruct (respond h (File_Readdir f 500) w3) as [a w4].
  cbn [fst snd] in *. subst a. cbn. repeat split.
Qed.

Lemma OpenDir_of_unlistable_path_witness :
  let g := OpenDir_func1 (Some {| fd := 3 |}) 500 0%nat in
  let r := run Script.env (LoopbackFileSystem.OpenDir Script.env fs0 "a") 0
             [([], Some (Errno 20))] in
  let p := run Script.env (goroutine g) 1 [([], Some (Errno 20))] in
  outcome r = Returned (Some 0%nat, OK)
  /\ started (trace r) = [g]
  /\ outcome p = Returned tt
  /\ delivered 0%nat (trace p) = []
  /\ issued (trace p)
     = [Is (File_Readdir (Some {| fd := 3 |}) 500); Is (chan_close 0%nat);
        Is (File_Close (Some {| fd := 3 |}))].
Proof.
  apply (OpenDir_of_unlistable_path Script.env fs0 "a" 0
           [([], Some (Errno 20))] [([], Some (Errno 20))]
           [([], Some (Errno 20))] (Some {| fd := 3 |}) 0%nat (Errno 20)
           eq_refl eq_refl eq_refl).
Defined.
